(** * Padel league: the modified Elo rating engine of [padel_app.py]

    A shallow embedding of the rating engine ([calculate_expected_score]
    and [process_match]) together with the store it reads and writes, of
    the registration of players ([add_player]), of the queries
    ([get_players], [get_leaderboard], [get_match_history]) and of what
    the tabs of [main] do with them.

    Modelling choices.
    - Python floats (the [rating REAL] column, the result of [/] and of
      [**]) are the real numbers [R]; [10 ** x] is [Rpower 10 x].  The
      [OverflowError] that [**] and [/] raise when their result is beyond
      the largest float is modelled; rounding and non-finite values are
      not, so equalities between real numbers hold of the code up to
      rounding.
    - Python and SQLite integers (scores, [matches_played], player ids)
      are [Z].  Binding an integer outside SQLite's 64-bit range to a
      statement raises [OverflowError]; this is modelled for the values
      written by the [UPDATE] and [INSERT] statements.  Player ids are
      taken within that range: they are keys of the table, or candidates
      for one.
    - The [players] table is a finite map from the primary key to the other
      columns; the [matches] table is the list of inserted rows, oldest
      first (the auto-generated [id] and [timestamp] columns are left to
      the store).
    - Code that reads or writes the database is in the monad [Db]: a state
      monad over [database] whose computations either return a value or
      raise a Python exception.  The writes of [process_match] belong to
      one transaction of its connection, committed by [conn.commit()] at
      the end of the successful path only: [transaction] gives back the
      database of before when its body raises. *)

From Stdlib Require Import ZArith Reals Lra Lia.
From stdpp Require Import base gmap strings list fin_maps sorting.

Open Scope Z_scope.

(** ** Configuration *)

Definition K_FACTOR_STANDARD : Z := 32.
Definition K_FACTOR_PROVISIONAL : Z := 64.
Definition PROVISIONAL_LIMIT : Z := 5.
Definition RATING_FLOOR : Z := 100.
Definition SCALING_FACTOR : Z := 100.

(** ** The store *)

(** A row of [players], without its key [id]. *)
Record player_row := Player {
  name : string;
  rating : R;
  matches_played : Z
}.

(** A row of [matches]: the eight columns [process_match] inserts. *)
Record match_row := Match {
  p1_id : Z; p2_id : Z; p3_id : Z; p4_id : Z;
  score_team1 : Z; score_team2 : Z;
  rating_change_team1 : R; rating_change_team2 : R
}.

Record database := Database {
  players : gmap Z player_row;
  matches : list match_row
}.

(** ** The monad of database code *)

Inductive exception := TypeError | KeyError | IndexError | OverflowError.

Inductive result (A : Type) :=
  | Value (a : A)
  | Raise (e : exception).
Arguments Value {A} a.
Arguments Raise {A} e.

Definition Db (A : Type) : Type := database -> result A * database.

Definition ret {A} (a : A) : Db A := fun db => (Value a, db).

Definition raise {A} (e : exception) : Db A := fun db => (Raise e, db).

Definition bind {A B} (m : Db A) (f : A -> Db B) : Db B :=
  fun db =>
    match m db with
    | (Value a, db') => f a db'
    | (Raise e, db') => (Raise e, db')
    end.

Declare Scope db_scope.
Delimit Scope db_scope with db.
Notation "x <- m ;; k" := (bind m (fun x => k))
  (at level 90, m at level 89, right associativity) : db_scope.
Notation "'let*' p := m 'in' k" := (bind m (fun x => let p := x in k))
  (at level 90, p pattern, m at level 89, right associativity) : db_scope.
Notation "m ;;; k" := (bind m (fun _ => k))
  (at level 90, right associativity) : db_scope.

(** A step without effect on the database that may raise. *)
Definition lift {A} (r : result A) : Db A := fun db => (r, db).

(** A connection whose statements are committed by the [conn.commit()]
    that ends [body]: when [body] raises, the connection is dropped with
    its statements uncommitted and the database is as before. *)
Definition transaction {A} (body : Db A) : Db A :=
  fun db =>
    match body db with
    | (Value a, db') => (Value a, db')
    | (Raise e, _) => (Raise e, db)
    end.

(** The integers SQLite stores.  Binding a Python [int] outside this
    range to a statement raises [OverflowError]. *)
Definition in_int64 (n : Z) : bool :=
  (- 2 ^ 63 <=? n)%Z && (n <=? 2 ^ 63 - 1)%Z.

(** [for x in l: body(x)] *)
Fixpoint for_each {A} (l : list A) (body : A -> Db unit) : Db unit :=
  match l with
  | [] => ret tt
  | x :: l' => (body x ;;; for_each l' body)%db
  end.

(** [c.execute("SELECT rating, matches_played FROM players WHERE id=?");
    c.fetchone()]: the selected columns of the row, [None] when there is
    no such row. *)
Definition select_rating_matches (db : database) (pid : Z) : option (R * Z) :=
  (fun row => (rating row, matches_played row)) <$> players db !! pid.

Definition fetchone (pid : Z) : Db (option (R * Z)) :=
  fun db => (Value (select_rating_matches db pid), db).

(** [r, m = row]: unpacking [None] raises [TypeError]. *)
Definition unpack {A} (row : option A) : Db A :=
  match row with
  | Some x => ret x
  | None => raise TypeError
  end.

(** [UPDATE players SET rating=?, matches_played=? WHERE id=?]: rewrites
    the row with that key, if there is one. *)
Definition set_columns (new_r : R) (new_m : Z) (row : player_row) : player_row :=
  {| name := name row; rating := new_r; matches_played := new_m |}.

Definition update_player (u : Z * R * Z) : Db unit :=
  fun db =>
    let '(pid, new_r, new_m) := u in
    if in_int64 new_m then
      (Value tt,
       {| players := alter (set_columns new_r new_m) pid (players db);
          matches := matches db |})
    else (Raise OverflowError, db).

(** [INSERT INTO matches (...) VALUES (...)] *)
Definition insert_match (row : match_row) : Db unit :=
  fun db =>
    if in_int64 (score_team1 row) && in_int64 (score_team2 row) then
      (Value tt, {| players := players db; matches := matches db ++ [row] |})
    else (Raise OverflowError, db).

(** ** Elo math *)

Open Scope R_scope.

(** The largest float, [(2 - 2^-52) * 2^1023]. *)
Definition float_max : R := IZR ((2 ^ 53 - 1) * 2 ^ 971).

(** [10 ** x] for a float [x]: [OverflowError] when the power is beyond
    the largest float.  (A power too small for a float is returned as
    0.0 without an exception: rounding, which is not modelled.) *)
Definition pow10 (x : R) : result R :=
  if Rlt_dec float_max (Rpower 10 x) then Raise OverflowError
  else Value (Rpower 10 x).

(** [1 / (1 + 10 ** ((rating_b - rating_a) / 400))] *)
Definition calculate_expected_score (rating_a rating_b : R) : result R :=
  match pow10 ((rating_b - rating_a) / 400) with
  | Value p => Value (1 / (1 + p))
  | Raise e => Raise e
  end.

(** [a / b] on two [int]s, [b] not zero: [OverflowError] when the
    quotient is beyond the largest float. *)
Definition true_div (a b : Z) : result R :=
  if Rlt_dec float_max (Rabs (IZR a / IZR b)) then Raise OverflowError
  else Value (IZR a / IZR b).

(** The integer nearest to [y], the even one of two equally near. *)
Definition round_half_even (y : R) : Z :=
  let n := Int_part y in
  let f := y - IZR n in
  if Rlt_dec f (1 / 2) then n
  else if Rlt_dec (1 / 2) f then (n + 1)%Z
  else if Z.even n then n else (n + 1)%Z.

(** The number that [f"{x:.3f}"] prints: [x] rounded to three decimals. *)
Definition format_3f (x : R) : R :=
  IZR (round_half_even (x * 1000)) / 1000.

(** [K_FACTOR_PROVISIONAL if matches < PROVISIONAL_LIMIT else
    K_FACTOR_STANDARD], the first line of both update loops. *)
Definition k_factor (matches : Z) : Z :=
  if (matches <? PROVISIONAL_LIMIT)%Z then K_FACTOR_PROVISIONAL
  else K_FACTOR_STANDARD.

(** Python's [max(a, b)]: [b] when [b > a], else [a]. *)
Definition py_max (a b : R) : R :=
  if Rlt_dec a b then b else a.

(** Body of the "Team 1 Updates" loop: the tuple appended to [updates]. *)
Definition team1_update (actual_t1 expected_t1 : R) (p : Z * R * Z) : Z * R * Z :=
  let '(pid, rating, matches) := p in
  let k := k_factor matches in
  let change := IZR k * (actual_t1 - expected_t1) in
  let new_rating := py_max (IZR RATING_FLOOR) (rating + change) in
  (pid, new_rating, (matches + 1)%Z).

(** Body of the "Team 2 Updates" loop. *)
Definition team2_update (actual_t1 expected_t1 : R) (p : Z * R * Z) : Z * R * Z :=
  let '(pid, rating, matches) := p in
  let k := k_factor matches in
  let change := IZR k * ((1 - actual_t1) - (1 - expected_t1)) in
  let new_rating := py_max (IZR RATING_FLOOR) (rating + change) in
  (pid, new_rating, (matches + 1)%Z).

(** What [process_match] returns: a success flag and a message.  The
    success message is
    [f"Match recorded! Rating change: {ref_change/SCALING_FACTOR:.3f} (Display Units)"];
    the model keeps the number that the message shows. *)
Inductive message :=
  | Total_points_cannot_be_zero
  | Match_recorded (display_change : R).

(** The local dictionary [players] of [process_match], filled by
    [for pid in [...]: players[pid] = c.fetchone()]. *)
Fixpoint fetch_all (pids : list Z) (acc : gmap Z (option (R * Z)))
  : Db (gmap Z (option (R * Z))) :=
  match pids with
  | [] => ret acc
  | pid :: rest => (row <- fetchone pid ;; fetch_all rest (<[pid := row]> acc))%db
  end.

(** [l[0]] on a list: [IndexError] when the list is empty. *)
Definition first {A} (l : list A) : Db A :=
  match l with
  | x :: _ => ret x
  | [] => raise IndexError
  end.

(** [d[k]] on a dictionary: [KeyError] when the key is absent. *)
Definition getitem `{Countable K} {V} (d : gmap K V) (k : K) : Db V :=
  match d !! k with
  | Some v => ret v
  | None => raise KeyError
  end.

Definition process_match (p1_id p2_id p3_id p4_id score_t1 score_t2 : Z)
  : Db (bool * message) :=
  transaction
  (* 1. Fetch current data *)
  (players <- fetch_all [p1_id; p2_id; p3_id; p4_id] ∅ ;;
   let* (r1, m1) := (row <- getitem players p1_id ;; unpack row) in
   let* (r2, m2) := (row <- getitem players p2_id ;; unpack row) in
   let* (r3, m3) := (row <- getitem players p3_id ;; unpack row) in
   let* (r4, m4) := (row <- getitem players p4_id ;; unpack row) in
   (* 2. Team Ratings (Average) *)
   let team1_rating := (r1 + r2) / 2 in
   let team2_rating := (r3 + r4) / 2 in
   (* 3. Expected Score *)
   expected_t1 <- lift (calculate_expected_score team1_rating team2_rating) ;;
   (* 4. Actual Score *)
   let total_points := (score_t1 + score_t2)%Z in
   if (total_points =? 0)%Z then ret (false, Total_points_cannot_be_zero)
   else
     actual_t1 <- lift (true_div score_t1 total_points) ;;
     (* 5. Calculate Changes *)
     let updates :=
       map (team1_update actual_t1 expected_t1) [(p1_id, r1, m1); (p2_id, r2, m2)]
       ++ map (team2_update actual_t1 expected_t1) [(p3_id, r3, m3); (p4_id, r4, m4)] in
     (* 6. Commit to DB *)
     for_each updates update_player ;;;
     let* (_, new_r1, _) := first updates in
     let ref_change := new_r1 - r1 in
     insert_match (Match p1_id p2_id p3_id p4_id score_t1 score_t2
                         ref_change (- ref_change)) ;;;
     ret (true, Match_recorded (format_3f (ref_change / IZR SCALING_FACTOR))))%db.

(** ** The "Record Match" form of [main] *)

(** What the form shows after "Submit Result". *)
Inductive shown :=
  | st_error (text : string)
  | st_error_msg (msg : message)
  | st_success (msg : message).

(** The handler of the submit button.  [player_dict] is the dictionary
    [{name: id}] built from the [players] table when the form is drawn;
    the four names are the selections of the dropdowns. *)
Definition submit_result (player_dict : gmap string Z)
    (t1_p1 t1_p2 t2_p1 t2_p2 : string) (score_t1 score_t2 : Z) : Db shown :=
  let selected_players := [t1_p1; t1_p2; t2_p1; t2_p2] in
  if decide (size (list_to_set selected_players : gset string) <> 4%nat)
  then ret (st_error "Error: You selected the same player multiple times.")
  else if (score_t1 =? 0)%Z && (score_t2 =? 0)%Z
  then ret (st_error "Error: Total points cannot be zero.")
  else
    (p1_id <- getitem player_dict t1_p1 ;;
     p2_id <- getitem player_dict t1_p2 ;;
     p3_id <- getitem player_dict t2_p1 ;;
     p4_id <- getitem player_dict t2_p2 ;;
     let* (success, msg) := process_match p1_id p2_id p3_id p4_id score_t1 score_t2 in
     if success : bool then ret (st_success msg) else ret (st_error_msg msg))%db.

(** ** Derived forms used in the proofs *)

(** The [players] table after the [UPDATE] statements of [updates]. *)
Definition apply_updates (updates : list (Z * R * Z)) (m : gmap Z player_row)
  : gmap Z player_row :=
  fold_left (fun m u => alter (set_columns u.1.2 u.2) u.1.1 m) updates m.


(** The value of the logistic formula, where [calculate_expected_score]
    returns one. *)
Definition logistic (rating_a rating_b : R) : R :=
  1 / (1 + Rpower 10 ((rating_b - rating_a) / 400)).

(** The list [updates] built by the two update loops. *)
Definition match_updates (p1_id p2_id p3_id p4_id score_t1 score_t2 : Z)
    (r1 : R) (m1 : Z) (r2 : R) (m2 : Z) (r3 : R) (m3 : Z) (r4 : R) (m4 : Z)
  : list (Z * R * Z) :=
  let expected_t1 := logistic ((r1 + r2) / 2) ((r3 + r4) / 2) in
  let actual_t1 := IZR score_t1 / IZR (score_t1 + score_t2) in
  [team1_update actual_t1 expected_t1 (p1_id, r1, m1);
   team1_update actual_t1 expected_t1 (p2_id, r2, m2);
   team2_update actual_t1 expected_t1 (p3_id, r3, m3);
   team2_update actual_t1 expected_t1 (p4_id, r4, m4)].

(** The value [ref_change] stored with the match. *)
Definition match_ref_change (score_t1 score_t2 : Z)
    (r1 : R) (m1 : Z) (r2 r3 r4 : R) : R :=
  let expected_t1 := logistic ((r1 + r2) / 2) ((r3 + r4) / 2) in
  let actual_t1 := IZR score_t1 / IZR (score_t1 + score_t2) in
  (team1_update actual_t1 expected_t1 (0%Z, r1, m1)).1.2 - r1.

(** The values bound by the [UPDATE]s and the [INSERT] are all within
    SQLite's integers. *)
Definition writes_in_range (updates : list (Z * R * Z)) (score_t1 score_t2 : Z) : bool :=
  forallb (fun u : Z * R * Z => in_int64 u.2) updates
  && (in_int64 score_t1 && in_int64 score_t2).

(** The part of [process_match] after the four rows were unpacked, with
    the outcome of the transaction. *)
Definition rate_and_record (p1_id p2_id p3_id p4_id score_t1 score_t2 : Z)
    (r1 : R) (m1 : Z) (r2 : R) (m2 : Z) (r3 : R) (m3 : Z) (r4 : R) (m4 : Z)
    (db : database) : result (bool * message) * database :=
  match calculate_expected_score ((r1 + r2) / 2) ((r3 + r4) / 2) with
  | Raise e => (Raise e, db)
  | Value _ =>
      if (score_t1 + score_t2 =? 0)%Z
      then (Value (false, Total_points_cannot_be_zero), db)
      else
        match true_div score_t1 (score_t1 + score_t2) with
        | Raise e => (Raise e, db)
        | Value _ =>
            let updates := match_updates p1_id p2_id p3_id p4_id score_t1 score_t2
                                         r1 m1 r2 m2 r3 m3 r4 m4 in
            let ref_change := match_ref_change score_t1 score_t2 r1 m1 r2 r3 r4 in
            if writes_in_range updates score_t1 score_t2 then
              (Value (true,
                      Match_recorded (format_3f (ref_change / IZR SCALING_FACTOR))),
               {| players := apply_updates updates (players db);
                  matches := matches db
                             ++ [Match p1_id p2_id p3_id p4_id score_t1 score_t2
                                       ref_change (- ref_change)] |})
            else (Raise OverflowError, db)
        end
  end.

(** The inputs for which [process_match], given registered players and a
    total that is not zero, runs through: a team-rating gap whose power
    of ten is a float, and scores and new counters that SQLite stores. *)
Definition call_in_range (score_t1 score_t2 : Z)
    (r1 : R) (m1 : Z) (r2 : R) (m2 : Z) (r3 : R) (m3 : Z) (r4 : R) (m4 : Z) : Prop :=
  ((r3 + r4) / 2 - (r1 + r2) / 2) / 400 <= 308
  /\ in_int64 score_t1 = true /\ in_int64 score_t2 = true
  /\ in_int64 (m1 + 1) = true /\ in_int64 (m2 + 1) = true
  /\ in_int64 (m3 + 1) = true /\ in_int64 (m4 + 1) = true.

(** A league in which every call with scores of 64 bits is in that
    range: all ratings lie between 0 and 123200, so that no two team
    ratings are more than [308 * 400] apart, and every counter can be
    incremented within SQLite's integers. *)
Definition league_in_range (db : database) : Prop :=
  forall (pid : Z) (row : player_row),
    players db !! pid = Some row ->
    0 <= rating row <= 123200 /\ in_int64 (matches_played row + 1) = true.

(** ** Example leagues *)

(** Four newcomers, all at rating 500 (display 5.00). *)
Definition league_500 : database :=
  {| players := {[ 1%Z := Player "Ana" 500 0; 2%Z := Player "Bea" 500 0;
                   3%Z := Player "Carl" 500 0; 4%Z := Player "Dan" 500 0 ]};
     matches := [] |}.


(** A newcomer at 500 partnered with a veteran at 500, against two
    veterans at 500. *)
Definition league_mixed : database :=
  {| players := {[ 1%Z := Player "Ana" 500 0; 2%Z := Player "Bea" 500 12;
                   3%Z := Player "Carl" 500 7; 4%Z := Player "Dan" 500 5 ]};
     matches := [] |}.


(** Three registered players; id 4 is not in the table. *)
Definition league_three : database :=
  {| players := {[ 1%Z := Player "Ana" 500 0; 2%Z := Player "Bea" 500 0;
                   3%Z := Player "Carl" 500 0 ]};
     matches := [] |}.

(** ** Registration *)

(** The key that [INTEGER PRIMARY KEY AUTOINCREMENT] gives to a new row
    of [players]: one more than the largest key of the table, 1 in an
    empty table.  (SQLite counts from the largest key ever used; no
    statement of the program deletes a player, so that is the largest key
    present.) *)
Definition next_id (m : gmap Z player_row) : Z :=
  (foldr Z.max 0 (map_to_list m).*1 + 1)%Z.

(** The [UNIQUE] constraint on [name]: some row carries the name already. *)
Definition name_taken (n : string) (m : gmap Z player_row) : bool :=
  bool_decide (n ∈ (fun kv : Z * player_row => name kv.2) <$> map_to_list m).

(** [INSERT INTO players (name, rating, matches_played) VALUES (?, ?, ?)]:
    the new key, or [None] for the [sqlite3.IntegrityError] of a name
    that is taken. *)
Definition insert_player (n : string) (r : R) (mp : Z) : Db (option Z) :=
  fun db =>
    if name_taken n (players db) then (Value None, db)
    else
      let id := next_id (players db) in
      (Value (Some id),
       {| players := <[id := Player n r mp]> (players db);
          matches := matches db |}).

Definition add_player (n : string) (initial_rating_display : R) : Db bool :=
  let backend_rating := initial_rating_display * IZR SCALING_FACTOR in
  (inserted <- insert_player n backend_rating 0 ;;
   match inserted with
   | Some _ => ret true
   | None => ret false
   end)%db.

(** ** The queries *)

(** [ORDER BY name]: the byte order of the names.  Rows with equal keys
    come out in the order the sort leaves them; SQLite fixes none. *)
Definition name_le (x y : Z * player_row) : Prop :=
  String.leb (name x.2) (name y.2) = true.

#[global] Instance name_le_dec : RelDecision name_le.
Proof. intros x y. unfold name_le. apply _. Defined.

(** [SELECT id, name, rating, matches_played FROM players ORDER BY name] *)
Definition get_players : Db (list (Z * player_row)) :=
  fun db => (Value (merge_sort name_le (map_to_list (players db))), db).

(** [ORDER BY rating DESC] *)
Definition rating_ge (x y : player_row) : Prop := rating y <= rating x.

#[global] Instance rating_ge_dec : RelDecision rating_ge.
Proof. intros x y. unfold rating_ge. apply Rle_dec. Defined.

(** A row of the leaderboard frame: the three selected columns and the
    added column ['Display Rating']. *)
Record leaderboard_row := Leaderboard_row {
  lb_name : string;
  lb_rating : R;
  lb_matches_played : Z;
  Display_Rating : R
}.

Definition with_display_rating (row : player_row) : leaderboard_row :=
  {| lb_name := name row;
     lb_rating := rating row;
     lb_matches_played := matches_played row;
     Display_Rating := rating row / IZR SCALING_FACTOR |}.

Definition get_leaderboard : Db (list leaderboard_row) :=
  fun db =>
    (Value (with_display_rating
              <$> merge_sort rating_ge (map_to_list (players db)).*2), db).

(** A row of the match history: the four names and the two scores (the
    store's [id] and [timestamp] columns are not modelled). *)
Record history_row := History_row {
  h_p1 : string; h_p2 : string; h_p3 : string; h_p4 : string;
  h_score_team1 : Z; h_score_team2 : Z
}.

(** The four [JOIN players] of the history query: a match row whose four
    ids all resolve, with their names. *)
Definition join_names (m : gmap Z player_row) (r : match_row) : option history_row :=
  match name <$> m !! p1_id r, name <$> m !! p2_id r,
        name <$> m !! p3_id r, name <$> m !! p4_id r with
  | Some n1, Some n2, Some n3, Some n4 =>
      Some (History_row n1 n2 n3 n4 (score_team1 r) (score_team2 r))
  | _, _, _, _ => None
  end.

(** [... ORDER BY m.timestamp DESC]: the timestamp is the time of the
    insert, to the second.  The model lists the newest insert first;
    SQLite fixes no order between rows inserted within the same second,
    so the properties below are stated up to the order of the entries. *)
Definition get_match_history : Db (list history_row) :=
  fun db => (Value (omap (join_names (players db)) (reverse (matches db))), db).

(** ** The tabs of [main] *)

(** [dict(zip(player_df['name'], player_df['id']))]: a later row replaces
    an earlier one with the same name. *)
Definition dict_zip (rows : list (Z * player_row)) : gmap string Z :=
  fold_left (fun d kv => <[name kv.2 := kv.1]> d) rows ∅.

(** The "Record Match" tab with the submit button pressed. *)
Inductive record_match_shown :=
  | st_warning_4_players
  | submitted (s : shown).

Definition record_match_tab (t1_p1 t1_p2 t2_p1 t2_p2 : string)
    (score_t1 score_t2 : Z) : Db record_match_shown :=
  (player_df <- get_players ;;
   if (length player_df <? 4)%nat then ret st_warning_4_players
   else
     let player_dict := dict_zip player_df in
     s <- submit_result player_dict t1_p1 t1_p2 t2_p1 t2_p2 score_t1 score_t2 ;;
     ret (submitted s))%db.

(** The "Register Player" tab with the form submitted. *)
Inductive register_shown :=
  | player_added (new_name : string) (initial_rating : R)
  | name_already_exists
  | please_enter_a_name.

Definition register_tab (new_name : string) (initial_rating : R) : Db register_shown :=
  if decide (new_name = EmptyString) then ret please_enter_a_name
  else
    (ok <- add_player new_name initial_rating ;;
     if ok : bool then ret (player_added new_name initial_rating)
     else ret name_already_exists)%db.

(** The table of the "Leaderboard" tab: [None] for the notice shown when
    nobody is registered, else the four columns shown: the added ['Rank'],
    [range(1, len(df) + 1)], then the name, the display rating and the
    matches played. *)
Definition leaderboard_tab : Db (option (list (Z * string * R * Z))) :=
  (df <- get_leaderboard ;;
   match df with
   | [] => ret None
   | _ =>
       ret (Some (zip_with
                    (fun rank row =>
                       (rank, lb_name row, Display_Rating row, lb_matches_played row))
                    (Z.of_nat <$> seq 1 (length df)) df))
   end)%db.

(** ** The states of the league *)

(** The databases that calls of [add_player] and [process_match] produce
    from the empty tables that [init_db] creates. *)
Inductive reachable : database -> Prop :=
  | reachable_init : reachable (Database ∅ [])
  | reachable_add_player db n display res db' :
      reachable db ->
      add_player n display db = (res, db') ->
      reachable db'
  | reachable_process_match db p1 p2 p3 p4 s1 s2 res db' :
      reachable db ->
      process_match p1 p2 p3 p4 s1 s2 db = (res, db') ->
      reachable db'.

(** The match rows that name a player. *)
Definition plays_in (pid : Z) (r : match_row) : Prop :=
  pid ∈ [p1_id r; p2_id r; p3_id r; p4_id r].

#[global] Instance plays_in_dec pid r : Decision (plays_in pid r).
Proof. unfold plays_in. apply _. Defined.

(** What every reachable database satisfies (shown below): names are
    unique, the match log names registered players only, the counter of
    a player is the number of logged matches that name the player, and
    whoever has played stands at or above the floor. *)
Record league_invariant (db : database) : Prop := League_invariant {
  inv_names : forall i j ri rj,
    players db !! i = Some ri -> players db !! j = Some rj ->
    name ri = name rj -> i = j;
  inv_registered : forall r pid,
    r ∈ matches db -> plays_in pid r -> is_Some (players db !! pid);
  inv_counts : forall pid row,
    players db !! pid = Some row ->
    matches_played row = Z.of_nat (length (filter (plays_in pid) (matches db)));
  inv_floor : forall pid row,
    players db !! pid = Some row ->
    (0 < matches_played row)%Z -> 100 <= rating row
}.

(** ** The expected-outcome model *)

Lemma Rpower_10_pos (x : R) : 0 < Rpower 10 x.
Proof. unfold Rpower. apply exp_pos. Qed.

Lemma logistic_range (a b : R) : 0 < logistic a b < 1.
Proof.
  unfold logistic.
  pose proof (Rpower_10_pos ((b - a) / 400)) as Hp.
  split.
  - apply Rdiv_lt_0_compat; lra.
  - apply (Rmult_lt_reg_r (1 + Rpower 10 ((b - a) / 400))); [lra |].
    unfold Rdiv. rewrite Rmult_assoc, Rinv_l; lra.
Qed.


Lemma logistic_same (a : R) : logistic a a = 1 / 2.
Proof.
  unfold logistic.
  replace ((a - a) / 400) with 0 by lra.
  rewrite Rpower_O by lra. lra.
Qed.


(** *** The range of the floats *)

Lemma Rpower_10_nat (n : nat) : Rpower 10 (INR n) = IZR (10 ^ Z.of_nat n).
Proof. rewrite Rpower_pow by lra. by rewrite pow_IZR. Qed.

Lemma pow10_in_range (x : R) : x <= 308 -> pow10 x = Value (Rpower 10 x).
Proof.
  intros Hx. unfold pow10.
  destruct (Rlt_dec float_max (Rpower 10 x)) as [Hover | _]; [| done].
  exfalso.
  assert (Hmono : Rpower 10 x <= Rpower 10 (INR 308)).
  { apply Rle_Rpower; [lra |]. rewrite INR_IZR_INZ. exact Hx. }
  rewrite Rpower_10_nat in Hmono.
  assert (Hmax : IZR (10 ^ Z.of_nat 308) <= float_max).
  { unfold float_max. apply IZR_le, Z.leb_le. by vm_compute. }
  lra.
Qed.


Lemma calculate_expected_score_cases (a b : R) :
  calculate_expected_score a b = Value (logistic a b)
  \/ calculate_expected_score a b = Raise OverflowError.
Proof.
  unfold calculate_expected_score, pow10, logistic.
  destruct (Rlt_dec float_max (Rpower 10 ((b - a) / 400))); [by right | by left].
Qed.

Lemma calculate_expected_score_Value (a b e : R) :
  calculate_expected_score a b = Value e -> e = logistic a b.
Proof.
  destruct (calculate_expected_score_cases a b) as [-> | ->]; congruence.
Qed.

Lemma calculate_expected_score_in_range (a b : R) :
  (b - a) / 400 <= 308 -> calculate_expected_score a b = Value (logistic a b).
Proof.
  intros Hx. unfold calculate_expected_score. by rewrite pow10_in_range.
Qed.


Lemma in_int64_spec (n : Z) :
  in_int64 n = true
  <-> (-9223372036854775808 <= n <= 9223372036854775807)%Z.
Proof.
  unfold in_int64. rewrite andb_true_iff, !Z.leb_le.
  change (- 2 ^ 63)%Z with (-9223372036854775808)%Z.
  change (2 ^ 63 - 1)%Z with 9223372036854775807%Z. done.
Qed.

Lemma true_div_cases (a b : Z) :
  true_div a b = Value (IZR a / IZR b) \/ true_div a b = Raise OverflowError.
Proof.
  unfold true_div.
  destruct (Rlt_dec float_max (Rabs (IZR a / IZR b))); [by right | by left].
Qed.

Lemma true_div_Value (a b : Z) (q : R) :
  true_div a b = Value q -> q = IZR a / IZR b.
Proof. destruct (true_div_cases a b) as [-> | ->]; congruence. Qed.

Lemma true_div_in_range (a b : Z) :
  in_int64 a = true -> b <> 0%Z -> true_div a b = Value (IZR a / IZR b).
Proof.
  intros Ha Hb. unfold true_div.
  destruct (Rlt_dec float_max (Rabs (IZR a / IZR b))) as [Hover | _]; [| done].
  exfalso. apply in_int64_spec in Ha.
  assert (HA : 0 <= IZR (Z.abs a) <= IZR 9223372036854775808)
    by (split; apply IZR_le; lia).
  assert (HB : 1 <= IZR (Z.abs b)) by (apply IZR_le; lia).
  assert (Hinv : / IZR (Z.abs b) <= 1).
  { rewrite <- Rinv_1. apply Rinv_le_contravar; lra. }
  assert (Hpos : 0 < / IZR (Z.abs b)) by (apply Rinv_0_lt_compat; lra).
  assert (Hmax : IZR 9223372036854775808 <= float_max).
  { unfold float_max. apply IZR_le, Z.leb_le. by vm_compute. }
  unfold Rdiv in Hover. rewrite Rabs_mult, Rabs_inv, !Rabs_Zabs in Hover.
  nra.
Qed.

(** ** Running the store operations *)

Lemma for_each_update_player (updates : list (Z * R * Z)) (db : database) :
  forallb (fun u : Z * R * Z => in_int64 u.2) updates = true ->
  for_each updates update_player db
  = (Value tt, {| players := apply_updates updates (players db);
                  matches := matches db |}).
Proof.
  revert db. induction updates as [|[[pid r] mp] us IH]; intros db Hall.
  - by destruct db.
  - cbn [forallb] in Hall. apply andb_true_iff in Hall as [Hmp Hus].
    cbn [for_each]. unfold bind. cbn [update_player]. cbn in Hmp. rewrite Hmp.
    by rewrite IH.
Qed.

Lemma for_each_update_player_overflow (updates : list (Z * R * Z)) (db : database) :
  forallb (fun u : Z * R * Z => in_int64 u.2) updates = false ->
  exists db1, for_each updates update_player db = (Raise OverflowError, db1).
Proof.
  revert db. induction updates as [|[[pid r] mp] us IH]; intros db Hall; [done |].
  cbn [forallb] in Hall. cbn [for_each]. unfold bind. cbn [update_player].
  cbn in Hall. destruct (in_int64 mp); [| by eexists].
  cbn [andb] in Hall.
  match goal with
  | |- context [for_each us update_player ?d] => destruct (IH d Hall) as [db1 ->]
  end.
  by eexists.
Qed.

Lemma fetch_all_run (pids : list Z) (acc : gmap Z (option (R * Z))) (db : database) :
  fetch_all pids acc db
  = (Value (fold_left (fun d pid => <[pid := select_rating_matches db pid]> d) pids acc),
     db).
Proof.
  revert acc. induction pids as [|pid rest IH]; intros acc; [done |].
  cbn [fetch_all]. unfold bind, fetchone. by rewrite IH.
Qed.

Lemma fetch_all_lookup (db : database) (pids : list Z) (pid : Z) :
  forall acc : gmap Z (option (R * Z)),
    pid ∈ pids \/ acc !! pid = Some (select_rating_matches db pid) ->
    fold_left (fun d q => <[q := select_rating_matches db q]> d) pids acc !! pid
    = Some (select_rating_matches db pid).
Proof.
  induction pids as [|q rest IH]; intros acc Hin; cbn [fold_left].
  - destruct Hin as [Hin | Hacc]; [by apply elem_of_nil in Hin | done].
  - apply IH. destruct (decide (q = pid)) as [-> | Hne].
    + right. apply lookup_insert_eq.
    + destruct Hin as [Hin | Hacc].
      * apply elem_of_cons in Hin as [-> | Hin]; [done | by left].
      * right. by rewrite lookup_insert_ne.
Qed.

Lemma process_match_run (p1 p2 p3 p4 s1 s2 : Z) (db : database) :
  process_match p1 p2 p3 p4 s1 s2 db
  = match select_rating_matches db p1, select_rating_matches db p2,
          select_rating_matches db p3, select_rating_matches db p4 with
    | Some (r1, m1), Some (r2, m2), Some (r3, m3), Some (r4, m4) =>
        rate_and_record p1 p2 p3 p4 s1 s2 r1 m1 r2 m2 r3 m3 r4 m4 db
    | _, _, _, _ => (Raise TypeError, db)
    end.
Proof.
  unfold process_match, transaction, bind at 1. rewrite fetch_all_run.
  set (d := fold_left _ _ _).
  assert (Hd : forall pid, pid ∈ [p1; p2; p3; p4] ->
                 d !! pid = Some (select_rating_matches db pid)).
  { intros pid Hpid. apply fetch_all_lookup. by left. }
  unfold bind, getitem.
  rewrite !Hd by set_solver.
  destruct (select_rating_matches db p1) as [[r1 m1]|]; [|done].
  destruct (select_rating_matches db p2) as [[r2 m2]|]; [|done].
  destruct (select_rating_matches db p3) as [[r3 m3]|]; [|done].
  destruct (select_rating_matches db p4) as [[r4 m4]|]; [|done].
  cbn [unpack ret lift]. unfold rate_and_record.
  destruct (calculate_expected_score ((r1 + r2) / 2) ((r3 + r4) / 2))
    as [e | exn] eqn:He; [| done].
  apply calculate_expected_score_Value in He as ->.
  destruct (s1 + s2 =? 0)%Z; [done |].
  destruct (true_div s1 (s1 + s2)) as [a | exn] eqn:Ha; [| done].
  apply true_div_Value in Ha as ->.
  unfold writes_in_range, match_updates, match_ref_change. cbn [map app].
  set (us := [_; _; _; _]).
  destruct (forallb (fun u : Z * R * Z => in_int64 u.2) us) eqn:Hus.
  - rewrite for_each_update_player by done. subst us.
    cbn [first ret team1_update]. unfold insert_match.
    cbn [players matches score_team1 score_team2 andb].
    by destruct (in_int64 s1 && in_int64 s2).
  - destruct (for_each_update_player_overflow us db Hus) as [db1 ->]. done.
Qed.




(** ** The floor and the K-factor *)

Lemma py_max_Rmax (a b : R) : py_max a b = Rmax a b.
Proof.
  unfold py_max, Rmax.
  destruct (Rlt_dec a b), (Rle_dec a b); lra.
Qed.

Lemma py_max_floor (x : R) : IZR RATING_FLOOR <= py_max (IZR RATING_FLOOR) x.
Proof. rewrite py_max_Rmax. apply Rmax_l. Qed.

Lemma k_factor_cases (m : Z) :
  k_factor m = (if decide (m < 5)%Z then 64 else 32)%Z.
Proof.
  unfold k_factor, PROVISIONAL_LIMIT, K_FACTOR_PROVISIONAL, K_FACTOR_STANDARD.
  destruct (Z.ltb_spec m 5); case_decide; lia.
Qed.

(** ** The [UPDATE] loop *)

Lemma apply_updates_lookup (pid : Z) (updates : list (Z * R * Z)) :
  forall (m : gmap Z player_row) (row : player_row),
    m !! pid = Some row ->
    exists row',
      apply_updates updates m !! pid = Some row'
      /\ name row' = name row
      /\ ((row' = row /\ forall u, u ∈ updates -> u.1.1 <> pid)
          \/ exists u, u ∈ updates /\ u.1.1 = pid
                       /\ rating row' = u.1.2 /\ matches_played row' = u.2).
Proof.
  induction updates as [|u us IH]; intros m row Hrow.
  - exists row. repeat split; [done |]. left. split; [done |].
    intros u Hu. by apply elem_of_nil in Hu.
  - unfold apply_updates. cbn [fold_left]. fold (apply_updates us).
    destruct (decide (u.1.1 = pid)) as [Heq | Hne].
    + destruct (IH (alter (set_columns u.1.2 u.2) u.1.1 m)
                   (set_columns u.1.2 u.2 row)) as (row' & Hl & Hn & Hcases).
      { rewrite Heq, lookup_alter_eq, Hrow. done. }
      exists row'. split; [done |]. split; [done |]. right.
      destruct Hcases as [[-> _] | (v & Hv & Hk & Hr & Hm)].
      * exists u. split; [apply list_elem_of_here | done].
      * exists v. split; [by apply list_elem_of_further | done].
    + destruct (IH (alter (set_columns u.1.2 u.2) u.1.1 m) row)
        as (row' & Hl & Hn & Hcases).
      { by rewrite lookup_alter_ne. }
      exists row'. split; [done |]. split; [done |].
      destruct Hcases as [[-> Hnot] | (v & Hv & Hk & Hr & Hm)].
      * left. split; [done |]. intros v Hv.
        apply elem_of_cons in Hv as [-> | Hv]; [done | by apply Hnot].
      * right. exists v. split; [by apply list_elem_of_further | done].
Qed.

Lemma apply_updates_lookup_None (pid : Z) (updates : list (Z * R * Z)) :
  forall m : gmap Z player_row,
    m !! pid = None -> apply_updates updates m !! pid = None.
Proof.
  induction updates as [|u us IH]; intros m Hm; [done |].
  unfold apply_updates. cbn [fold_left]. apply IH.
  destruct (decide (u.1.1 = pid)) as [<- | Hne].
  - by rewrite lookup_alter_eq, Hm.
  - by rewrite lookup_alter_ne.
Qed.

(** ** Outcomes of [process_match] *)

Lemma select_rating_matches_Some (db : database) (pid : Z) (r : R) (m : Z) :
  select_rating_matches db pid = Some (r, m) <->
  exists row, players db !! pid = Some row /\ rating row = r /\ matches_played row = m.
Proof.
  unfold select_rating_matches. split.
  - destruct (players db !! pid) as [row|]; [|done].
    cbn. intros [= <- <-]. by exists row.
  - intros (row & -> & <- & <-). done.
Qed.

Lemma select_rating_matches_row (db : database) (pid : Z) (row : player_row) :
  players db !! pid = Some row ->
  select_rating_matches db pid = Some (rating row, matches_played row).
Proof. intros H. apply select_rating_matches_Some. by exists row. Qed.

Lemma process_match_found (p1 p2 p3 p4 s1 s2 : Z) (db : database)
    (row1 row2 row3 row4 : player_row) :
  players db !! p1 = Some row1 -> players db !! p2 = Some row2 ->
  players db !! p3 = Some row3 -> players db !! p4 = Some row4 ->
  process_match p1 p2 p3 p4 s1 s2 db
  = rate_and_record p1 p2 p3 p4 s1 s2
      (rating row1) (matches_played row1) (rating row2) (matches_played row2)
      (rating row3) (matches_played row3) (rating row4) (matches_played row4) db.
Proof.
  intros H1 H2 H3 H4. rewrite process_match_run.
  by rewrite (select_rating_matches_row _ _ _ H1), (select_rating_matches_row _ _ _ H2),
    (select_rating_matches_row _ _ _ H3), (select_rating_matches_row _ _ _ H4).
Qed.

Lemma rate_and_record_success (p1 p2 p3 p4 s1 s2 : Z)
    (r1 : R) (m1 : Z) (r2 : R) (m2 : Z) (r3 : R) (m3 : Z) (r4 : R) (m4 : Z)
    (db db' : database) (msg : message) :
  rate_and_record p1 p2 p3 p4 s1 s2 r1 m1 r2 m2 r3 m3 r4 m4 db
  = (Value (true, msg), db') ->
  (s1 + s2)%Z <> 0%Z
  /\ msg = Match_recorded
             (format_3f (match_ref_change s1 s2 r1 m1 r2 r3 r4 / IZR SCALING_FACTOR))
  /\ players db'
     = apply_updates (match_updates p1 p2 p3 p4 s1 s2 r1 m1 r2 m2 r3 m3 r4 m4)
                     (players db)
  /\ matches db'
     = matches db ++ [Match p1 p2 p3 p4 s1 s2
                            (match_ref_change s1 s2 r1 m1 r2 r3 r4)
                            (- match_ref_change s1 s2 r1 m1 r2 r3 r4)].
Proof.
  unfold rate_and_record.
  destruct (calculate_expected_score _ _); [| done].
  destruct (Z.eqb_spec (s1 + s2) 0); [done |].
  destruct (true_div _ _); [| done].
  destruct (writes_in_range _ _ _); [| done].
  intros [= <- <-]. done.
Qed.

(** A call that does not end in success returns the database it was given. *)
Lemma rate_and_record_failure (p1 p2 p3 p4 s1 s2 : Z)
    (r1 : R) (m1 : Z) (r2 : R) (m2 : Z) (r3 : R) (m3 : Z) (r4 : R) (m4 : Z)
    (db db' : database) (res : result (bool * message)) :
  rate_and_record p1 p2 p3 p4 s1 s2 r1 m1 r2 m2 r3 m3 r4 m4 db = (res, db') ->
  (forall msg, res <> Value (true, msg)) ->
  db' = db.
Proof.
  unfold rate_and_record. intros Hrun Hfail.
  destruct (calculate_expected_score _ _); [| by injection Hrun as _ <-].
  destruct (s1 + s2 =? 0)%Z; [by injection Hrun as _ <- |].
  destruct (true_div _ _); [| by injection Hrun as _ <-].
  destruct (writes_in_range _ _ _); [| by injection Hrun as _ <-].
  injection Hrun as <- _. by edestruct Hfail.
Qed.

(** The outcomes other than success and the zero-total failure are
    raised [OverflowError]s. *)
Lemma rate_and_record_outcomes (p1 p2 p3 p4 s1 s2 : Z)
    (r1 : R) (m1 : Z) (r2 : R) (m2 : Z) (r3 : R) (m3 : Z) (r4 : R) (m4 : Z)
    (db : database) :
  (exists msg db',
     rate_and_record p1 p2 p3 p4 s1 s2 r1 m1 r2 m2 r3 m3 r4 m4 db
     = (Value (true, msg), db'))
  \/ ((s1 + s2 = 0)%Z
      /\ rate_and_record p1 p2 p3 p4 s1 s2 r1 m1 r2 m2 r3 m3 r4 m4 db
         = (Value (false, Total_points_cannot_be_zero), db))
  \/ rate_and_record p1 p2 p3 p4 s1 s2 r1 m1 r2 m2 r3 m3 r4 m4 db
     = (Raise OverflowError, db).
Proof.
  unfold rate_and_record.
  destruct (calculate_expected_score_cases ((r1 + r2) / 2) ((r3 + r4) / 2))
    as [-> | ->]; [| by right; right].
  destruct (Z.eqb_spec (s1 + s2) 0); [by right; left |].
  destruct (true_div_cases s1 (s1 + s2)) as [-> | ->]; [| by right; right].
  destruct (writes_in_range _ _ _); [left; eauto | by right; right].
Qed.

Lemma rate_and_record_nonzero (p1 p2 p3 p4 s1 s2 : Z)
    (r1 : R) (m1 : Z) (r2 : R) (m2 : Z) (r3 : R) (m3 : Z) (r4 : R) (m4 : Z)
    (db : database) :
  (s1 + s2)%Z <> 0%Z ->
  call_in_range s1 s2 r1 m1 r2 m2 r3 m3 r4 m4 ->
  rate_and_record p1 p2 p3 p4 s1 s2 r1 m1 r2 m2 r3 m3 r4 m4 db
  = (Value (true, Match_recorded
                    (format_3f (match_ref_change s1 s2 r1 m1 r2 r3 r4
                                / IZR SCALING_FACTOR))),
     {| players := apply_updates
                     (match_updates p1 p2 p3 p4 s1 s2 r1 m1 r2 m2 r3 m3 r4 m4)
                     (players db);
        matches := matches db
                   ++ [Match p1 p2 p3 p4 s1 s2
                             (match_ref_change s1 s2 r1 m1 r2 r3 r4)
                             (- match_ref_change s1 s2 r1 m1 r2 r3 r4)] |}).
Proof.
  intros Hnz (Hgap & Hs1 & Hs2 & Hm1 & Hm2 & Hm3 & Hm4). unfold rate_and_record.
  rewrite calculate_expected_score_in_range by done.
  destruct (Z.eqb_spec (s1 + s2) 0); [done |].
  rewrite true_div_in_range by done.
  unfold writes_in_range, match_updates, team1_update, team2_update.
  cbn [forallb snd]. by rewrite Hs1, Hs2, Hm1, Hm2, Hm3, Hm4.
Qed.

Lemma process_match_missing (p1 p2 p3 p4 s1 s2 : Z) (db : database) (pid : Z) :
  pid ∈ [p1; p2; p3; p4] -> players db !! pid = None ->
  process_match p1 p2 p3 p4 s1 s2 db = (Raise TypeError, db).
Proof.
  intros Hin Hnone. rewrite process_match_run.
  assert (Hsel : select_rating_matches db pid = None).
  { unfold select_rating_matches. by rewrite Hnone. }
  destruct (select_rating_matches db p1) as [[r1 m1]|] eqn:E1;
  destruct (select_rating_matches db p2) as [[r2 m2]|] eqn:E2;
  destruct (select_rating_matches db p3) as [[r3 m3]|] eqn:E3;
  destruct (select_rating_matches db p4) as [[r4 m4]|] eqn:E4; try done.
  exfalso.
  repeat (apply elem_of_cons in Hin as [-> | Hin]; [congruence |]).
  by apply elem_of_nil in Hin.
Qed.

(** A call that reports success found all four rows and a non-zero total. *)
Lemma process_match_success_inv (p1 p2 p3 p4 s1 s2 : Z) (db db' : database)
    (msg : message) :
  process_match p1 p2 p3 p4 s1 s2 db = (Value (true, msg), db') ->
  exists row1 row2 row3 row4,
    players db !! p1 = Some row1 /\ players db !! p2 = Some row2
    /\ players db !! p3 = Some row3 /\ players db !! p4 = Some row4
    /\ (s1 + s2)%Z <> 0%Z
    /\ rate_and_record p1 p2 p3 p4 s1 s2
         (rating row1) (matches_played row1) (rating row2) (matches_played row2)
         (rating row3) (matches_played row3) (rating row4) (matches_played row4) db
       = (Value (true, msg), db').
Proof.
  intros Hrun.
  destruct (players db !! p1) as [row1|] eqn:E1;
    [| rewrite (process_match_missing _ _ _ _ _ _ _ p1) in Hrun; [done | set_solver | done]].
  destruct (players db !! p2) as [row2|] eqn:E2;
    [| rewrite (process_match_missing _ _ _ _ _ _ _ p2) in Hrun; [done | set_solver | done]].
  destruct (players db !! p3) as [row3|] eqn:E3;
    [| rewrite (process_match_missing _ _ _ _ _ _ _ p3) in Hrun; [done | set_solver | done]].
  destruct (players db !! p4) as [row4|] eqn:E4;
    [| rewrite (process_match_missing _ _ _ _ _ _ _ p4) in Hrun; [done | set_solver | done]].
  exists row1, row2, row3, row4. repeat (split; [done |]).
  rewrite (process_match_found _ _ _ _ _ _ _ _ _ _ _ E1 E2 E3 E4) in Hrun.
  split; [| done].
  by apply rate_and_record_success in Hrun as [Hnz _].
Qed.

(** A call that does not report success leaves the database as it was. *)
Lemma process_match_failure_unchanged (p1 p2 p3 p4 s1 s2 : Z) (db db' : database)
    (res : result (bool * message)) :
  process_match p1 p2 p3 p4 s1 s2 db = (res, db') ->
  (forall msg, res <> Value (true, msg)) ->
  db' = db.
Proof.
  rewrite process_match_run. intros Hrun Hfail.
  destruct (select_rating_matches db p1) as [[r1 m1]|];
  destruct (select_rating_matches db p2) as [[r2 m2]|];
  destruct (select_rating_matches db p3) as [[r3 m3]|];
  destruct (select_rating_matches db p4) as [[r4 m4]|];
    try (by injection Hrun as _ <-).
  by eapply rate_and_record_failure.
Qed.

(** The rows written for four pairwise distinct players. *)
Lemma process_match_distinct (p1 p2 p3 p4 s1 s2 : Z) (db db' : database)
    (msg : message) (row1 row2 row3 row4 : player_row) :
  players db !! p1 = Some row1 -> players db !! p2 = Some row2 ->
  players db !! p3 = Some row3 -> players db !! p4 = Some row4 ->
  process_match p1 p2 p3 p4 s1 s2 db = (Value (true, msg), db') ->
  NoDup [p1; p2; p3; p4] ->
  let e := logistic ((rating row1 + rating row2) / 2)
                    ((rating row3 + rating row4) / 2) in
  let a := IZR s1 / IZR (s1 + s2) in
  players db' !! p1 = Some (Player (name row1)
    (Rmax 100 (rating row1 + IZR (k_factor (matches_played row1)) * (a - e)))
    (matches_played row1 + 1))
  /\ players db' !! p2 = Some (Player (name row2)
    (Rmax 100 (rating row2 + IZR (k_factor (matches_played row2)) * (a - e)))
    (matches_played row2 + 1))
  /\ players db' !! p3 = Some (Player (name row3)
    (Rmax 100 (rating row3 + IZR (k_factor (matches_played row3)) * ((1 - a) - (1 - e))))
    (matches_played row3 + 1))
  /\ players db' !! p4 = Some (Player (name row4)
    (Rmax 100 (rating row4 + IZR (k_factor (matches_played row4)) * ((1 - a) - (1 - e))))
    (matches_played row4 + 1)).
Proof.
  intros H1 H2 H3 H4 Hrun Hnd e a.
  rewrite (process_match_found _ _ _ _ _ _ _ _ _ _ _ H1 H2 H3 H4) in Hrun.
  apply rate_and_record_success in Hrun as (_ & _ & -> & _).
  apply NoDup_cons in Hnd as [Hn1 Hnd]. apply NoDup_cons in Hnd as [Hn2 Hnd].
  apply NoDup_cons in Hnd as [Hn3 _].
  assert (p1 <> p2 /\ p1 <> p3 /\ p1 <> p4 /\ p2 <> p3 /\ p2 <> p4 /\ p3 <> p4)
    as (N12 & N13 & N14 & N23 & N24 & N34) by set_solver.
  unfold apply_updates, match_updates, team1_update, team2_update.
  cbn [fold_left fst snd].
  rewrite <- !py_max_Rmax.
  repeat split.
  - rewrite !lookup_alter_ne, lookup_alter_eq, H1 by done. done.
  - rewrite !lookup_alter_ne, lookup_alter_eq, lookup_alter_ne, H2 by done. done.
  - rewrite lookup_alter_ne, lookup_alter_eq, !lookup_alter_ne, H3 by done. done.
  - rewrite lookup_alter_eq, !lookup_alter_ne, H4 by done. done.
Qed.

(** Every row written by a successful call, distinct players or not. *)
Lemma process_match_written (p1 p2 p3 p4 s1 s2 : Z) (db db' : database)
    (msg : message) (pid : Z) :
  process_match p1 p2 p3 p4 s1 s2 db = (Value (true, msg), db') ->
  pid ∈ [p1; p2; p3; p4] ->
  exists row row',
    players db !! pid = Some row /\ players db' !! pid = Some row'
    /\ name row' = name row
    /\ IZR RATING_FLOOR <= rating row'
    /\ matches_played row' = (matches_played row + 1)%Z.
Proof.
  intros Hrun Hin.
  destruct (process_match_success_inv _ _ _ _ _ _ _ _ _ Hrun)
    as (row1 & row2 & row3 & row4 & H1 & H2 & H3 & H4 & Hnz & Hrec).
  apply rate_and_record_success in Hrec as (_ & _ & -> & _).
  assert (exists row, players db !! pid = Some row) as [row Hrow].
  { repeat (apply elem_of_cons in Hin as [-> | Hin]; [eauto |]).
    by apply elem_of_nil in Hin. }
  destruct (apply_updates_lookup pid
              (match_updates p1 p2 p3 p4 s1 s2
                 (rating row1) (matches_played row1) (rating row2) (matches_played row2)
                 (rating row3) (matches_played row3) (rating row4) (matches_played row4))
              _ _ Hrow) as (row' & Hl & Hn & Hcases).
  exists row, row'. repeat (split; [done |]).
  destruct Hcases as [[_ Hnot] | (u & Hu & Hk & Hr & Hm)].
  - exfalso.
    change [p1; p2; p3; p4]
      with ((match_updates p1 p2 p3 p4 s1 s2
               (rating row1) (matches_played row1) (rating row2) (matches_played row2)
               (rating row3) (matches_played row3) (rating row4) (matches_played row4)).*1.*1)
      in Hin.
    apply list_elem_of_fmap in Hin as (x & -> & Hin).
    apply list_elem_of_fmap in Hin as (u & -> & Hu).
    by apply (Hnot u Hu).
  - rewrite Hr, Hm. unfold match_updates in Hu.
    repeat (apply elem_of_cons in Hu as [-> | Hu];
            [cbn in Hk |- *; subst pid;
             split; [apply py_max_floor | congruence] |]).
    by apply elem_of_nil in Hu.
Qed.

(** Rows of players outside the match are not touched. *)
Lemma process_match_others (p1 p2 p3 p4 s1 s2 : Z) (db db' : database)
    (res : result (bool * message)) (pid : Z) :
  process_match p1 p2 p3 p4 s1 s2 db = (res, db') ->
  pid ∉ [p1; p2; p3; p4] ->
  players db' !! pid = players db !! pid.
Proof.
  intros Hrun Hout.
  destruct res as [[[|] msg] | exn];
    [| by rewrite (process_match_failure_unchanged _ _ _ _ _ _ _ _ _ Hrun)..].
  destruct (process_match_success_inv _ _ _ _ _ _ _ _ _ Hrun)
    as (row1 & row2 & row3 & row4 & H1 & H2 & H3 & H4 & Hnz & Hrec).
  apply rate_and_record_success in Hrec as (_ & _ & -> & _).
  unfold apply_updates, match_updates, team1_update, team2_update.
  cbn [fold_left fst snd].
  rewrite !lookup_alter_ne; [done | set_solver..].
Qed.

(** ** Runs on the example leagues *)


Lemma NoDup_1234 : NoDup [1; 2; 3; 4]%Z.
Proof. by apply (bool_decide_unpack _). Qed.



(** Checks [call_in_range] on numerals. *)
Ltac in_range :=
  unfold call_in_range; cbn [rating matches_played];
  split; [lra | repeat split; reflexivity].

Lemma league_run (db : database) (s1 s2 : Z) (row1 row2 row3 row4 : player_row) :
  players db !! 1%Z = Some row1 -> players db !! 2%Z = Some row2 ->
  players db !! 3%Z = Some row3 -> players db !! 4%Z = Some row4 ->
  (s1 + s2)%Z <> 0%Z ->
  call_in_range s1 s2 (rating row1) (matches_played row1)
                (rating row2) (matches_played row2)
                (rating row3) (matches_played row3)
                (rating row4) (matches_played row4) ->
  exists msg db', process_match 1 2 3 4 s1 s2 db = (Value (true, msg), db').
Proof.
  intros H1 H2 H3 H4 Hnz Hrange.
  rewrite (process_match_found _ _ _ _ _ _ _ _ _ _ _ H1 H2 H3 H4).
  rewrite rate_and_record_nonzero by done. eauto.
Qed.

(** ** The rating floor *)



(** ** The K-factor *)



(** ** Surprisal and its sign *)



(** ** The match record *)





(** ** The match counter *)

(** C6: a successful call adds exactly 1 to [matches_played] of each of
    the four participants (and touches nobody else's); a call that fails
    changes no player's [matches_played]. *)
Theorem process_match_matches_played
    (p1 p2 p3 p4 s1 s2 : Z) (db db' : database) (res : result (bool * message)) :
  process_match p1 p2 p3 p4 s1 s2 db = (res, db') ->
  ((exists msg, res = Value (true, msg)) ->
   (forall pid, pid ∈ [p1; p2; p3; p4] ->
      exists m : Z, matches_played <$> players db !! pid = Some m
                    /\ matches_played <$> players db' !! pid = Some (m + 1)%Z)
   /\ (forall pid, pid ∉ [p1; p2; p3; p4] ->
       matches_played <$> players db' !! pid = matches_played <$> players db !! pid))
  /\ ((forall msg, res <> Value (true, msg)) ->
      forall pid,
        matches_played <$> players db' !! pid = matches_played <$> players db !! pid).
Proof.
  intros Hrun. split.
  - intros [msg ->]. split.
    + intros pid Hin.
      destruct (process_match_written _ _ _ _ _ _ _ _ _ _ Hrun Hin)
        as (row & row' & Hrow & Hrow' & _ & _ & Hm).
      exists (matches_played row). rewrite Hrow, Hrow'. cbn. by rewrite Hm.
    + intros pid Hout.
      by rewrite (process_match_others _ _ _ _ _ _ _ _ _ _ Hrun Hout).
  - intros Hfail pid.
    by rewrite (process_match_failure_unchanged _ _ _ _ _ _ _ _ _ Hrun Hfail).
Qed.

(** On [league_mixed], 10-0: the counters 0, 12, 7, 5 become 1, 13, 8, 6. *)
Lemma process_match_matches_played_witness :
  exists msg db',
    process_match 1 2 3 4 10 0 league_mixed = (Value (true, msg), db')
    /\ matches_played <$> players db' !! 1%Z = Some 1%Z
    /\ matches_played <$> players db' !! 2%Z = Some 13%Z
    /\ matches_played <$> players db' !! 3%Z = Some 8%Z
    /\ matches_played <$> players db' !! 4%Z = Some 6%Z.
Proof.
  destruct (league_run league_mixed 10 0 (Player "Ana" 500 0) (Player "Bea" 500 12)
              (Player "Carl" 500 7) (Player "Dan" 500 5))
    as (msg & db' & Hrun);
    [reflexivity | reflexivity | reflexivity | reflexivity | lia | in_range |].
  destruct (process_match_matches_played 1 2 3 4 10 0 league_mixed db' _ Hrun)
    as [Hok _].
  destruct Hok as [Hin _]; [by exists msg |].
  exists msg, db'. split; [exact Hrun |].
  repeat split.
  - destruct (Hin 1%Z) as (m & Hm & ->); [set_solver |].
    injection Hm as <-. reflexivity.
  - destruct (Hin 2%Z) as (m & Hm & ->); [set_solver |].
    injection Hm as <-. reflexivity.
  - destruct (Hin 3%Z) as (m & Hm & ->); [set_solver |].
    injection Hm as <-. reflexivity.
  - destruct (Hin 4%Z) as (m & Hm & ->); [set_solver |].
    injection Hm as <-. reflexivity.
Defined.

(** ** Rejected scores *)









(** ** Missing players *)




(** ** Duplicate players *)

Lemma size_list_to_set_le (l : list string) :
  (size (list_to_set l : gset string) <= length l)%nat.
Proof.
  induction l as [|x l IH]; [done |].
  rewrite list_to_set_cons, size_union_alt, size_singleton. cbn [length].
  pose proof (subseteq_size (list_to_set l ∖ {[x]}) (list_to_set l : gset string)) as Hsub.
  assert (list_to_set l ∖ {[x]} ⊆ (list_to_set l : gset string)) as Hdiff
    by apply subseteq_difference_l, reflexivity.
  specialize (Hsub Hdiff). lia.
Qed.

(** [len(set(l)) == len(l)] only for a list without repetition. *)
Lemma size_list_to_set_NoDup (l : list string) :
  size (list_to_set l : gset string) = length l -> NoDup l.
Proof.
  induction l as [|x l IH]; intros Hsize; [constructor |].
  pose proof (size_list_to_set_le l) as Hle.
  destruct (decide (x ∈ l)) as [Hin | Hout].
  - exfalso. cbn [length] in Hsize.
    rewrite list_to_set_cons, subseteq_union_1_L in Hsize; [lia |].
    apply singleton_subseteq_l. by apply elem_of_list_to_set.
  - apply NoDup_cons. split; [done |]. apply IH.
    rewrite list_to_set_cons, size_union, size_singleton in Hsize.
    + cbn [length] in Hsize. lia.
    + apply disjoint_singleton_l. by rewrite elem_of_list_to_set.
Qed.





(** * Further properties of the engine *)

(** ** The logistic curve *)



(** X1: whatever [calculate_expected_score] returns is a probability,
    between 0 and 1; and it returns whenever the gap
    [(rating_b - rating_a) / 400] is at most 308. *)
Theorem calculate_expected_score_probability (rating_a rating_b : R) :
  (forall e, calculate_expected_score rating_a rating_b = Value e -> 0 <= e <= 1)
  /\ ((rating_b - rating_a) / 400 <= 308 ->
      exists e, calculate_expected_score rating_a rating_b = Value e).
Proof.
  split.
  - intros e He. apply calculate_expected_score_Value in He as ->.
    pose proof (logistic_range rating_a rating_b). lra.
  - intros Hgap. eexists. by apply calculate_expected_score_in_range.
Qed.

(** Ratings 500 against 600: the call returns a probability. *)
Lemma calculate_expected_score_probability_witness :
  exists e, calculate_expected_score 500 600 = Value e /\ 0 <= e <= 1.
Proof.
  destruct (calculate_expected_score_probability 500 600) as [Hrange Hret].
  destruct Hret as [e He]; [lra |].
  exists e. split; [exact He | exact (Hrange e He)].
Defined.



(** ** What a call leaves alone *)

Lemma process_match_names (p1 p2 p3 p4 s1 s2 : Z) (db db' : database)
    (res : result (bool * message)) (pid : Z) :
  process_match p1 p2 p3 p4 s1 s2 db = (res, db') ->
  name <$> players db' !! pid = name <$> players db !! pid.
Proof.
  intros Hrun.
  destruct (decide (pid ∈ [p1; p2; p3; p4])) as [Hin | Hout];
    [| by rewrite (process_match_others _ _ _ _ _ _ _ _ _ _ Hrun Hout)].
  destruct res as [[[|] msg] | exn];
    [| by rewrite (process_match_failure_unchanged _ _ _ _ _ _ _ _ _ Hrun)..].
  destruct (process_match_written _ _ _ _ _ _ _ _ _ _ Hrun Hin)
    as (row & row' & -> & -> & Hn & _). cbn. by rewrite Hn.
Qed.

Lemma process_match_log (p1 p2 p3 p4 s1 s2 : Z) (db db' : database)
    (res : result (bool * message)) :
  process_match p1 p2 p3 p4 s1 s2 db = (res, db') ->
  (db' = db /\ forall msg, res <> Value (true, msg))
  \/ exists msg change,
       res = Value (true, msg)
       /\ matches db' = matches db ++ [Match p1 p2 p3 p4 s1 s2 change (- change)].
Proof.
  intros Hrun.
  destruct res as [[[|] msg] | exn];
    [| left; split; [by rewrite (process_match_failure_unchanged _ _ _ _ _ _ _ _ _ Hrun)
                    | done]..].
  destruct (process_match_success_inv _ _ _ _ _ _ _ _ _ Hrun)
    as (row1 & row2 & row3 & row4 & _ & _ & _ & _ & _ & Hrec).
  apply rate_and_record_success in Hrec as (_ & _ & _ & ->).
  right. eauto.
Qed.

(** X3: whatever its arguments and its outcome, a call of
    [process_match] registers, removes and renames nobody, leaves the
    rows of the players it was not given untouched, and only ever adds
    to the end of the match log, at most one row. *)
Theorem process_match_frame
    (p1 p2 p3 p4 s1 s2 : Z) (db db' : database) (res : result (bool * message)) :
  process_match p1 p2 p3 p4 s1 s2 db = (res, db') ->
  (forall pid, name <$> players db' !! pid = name <$> players db !! pid)
  /\ (forall pid, pid ∉ [p1; p2; p3; p4] -> players db' !! pid = players db !! pid)
  /\ (matches db' = matches db \/ exists row, matches db' = matches db ++ [row]).
Proof.
  intros Hrun. split; [| split].
  - intros pid. exact (process_match_names _ _ _ _ _ _ _ _ _ pid Hrun).
  - intros pid Hout. exact (process_match_others _ _ _ _ _ _ _ _ _ _ Hrun Hout).
  - destruct (process_match_log _ _ _ _ _ _ _ _ _ Hrun)
      as [[-> _] | (msg & change & _ & ->)]; [by left | right; eauto].
Qed.

(** On [league_three] a 10-5 result between players 1, 2, 3 and the
    unregistered 4 raises; Carl is still Carl and 4 is still unknown. *)
Lemma process_match_frame_witness :
  exists res db',
    process_match 1 2 3 4 10 5 league_three = (res, db')
    /\ name <$> players db' !! 3%Z = Some "Carl"
    /\ players db' !! 4%Z = None.
Proof.
  destruct (process_match 1 2 3 4 10 5 league_three) as [res db'] eqn:Hrun.
  exists res, db'. split; [reflexivity |].
  destruct (process_match_frame 1 2 3 4 10 5 league_three db' res Hrun)
    as (Hnames & _ & _).
  split.
  - rewrite Hnames. reflexivity.
  - specialize (Hnames 4%Z).
    destruct (players db' !! 4%Z); [discriminate Hnames | reflexivity].
Defined.

(** ** Sizes and signs of the rating changes *)

Lemma process_match_distinct_ratings (p1 p2 p3 p4 s1 s2 : Z) (db db' : database)
    (msg : message) (row1 row2 row3 row4 row1' row2' row3' row4' : player_row) :
  players db !! p1 = Some row1 -> players db !! p2 = Some row2 ->
  players db !! p3 = Some row3 -> players db !! p4 = Some row4 ->
  process_match p1 p2 p3 p4 s1 s2 db = (Value (true, msg), db') ->
  NoDup [p1; p2; p3; p4] ->
  players db' !! p1 = Some row1' -> players db' !! p2 = Some row2' ->
  players db' !! p3 = Some row3' -> players db' !! p4 = Some row4' ->
  let e := logistic ((rating row1 + rating row2) / 2)
                    ((rating row3 + rating row4) / 2) in
  let a := IZR s1 / IZR (s1 + s2) in
  rating row1' = Rmax 100 (rating row1 + IZR (k_factor (matches_played row1)) * (a - e))
  /\ rating row2' = Rmax 100 (rating row2 + IZR (k_factor (matches_played row2)) * (a - e))
  /\ rating row3' = Rmax 100 (rating row3 + IZR (k_factor (matches_played row3)) * (e - a))
  /\ rating row4' = Rmax 100 (rating row4 + IZR (k_factor (matches_played row4)) * (e - a)).
Proof.
  intros H1 H2 H3 H4 Hrun Hnd H1' H2' H3' H4' e a.
  destruct (process_match_distinct _ _ _ _ _ _ _ _ _ _ _ _ _ H1 H2 H3 H4 Hrun Hnd)
    as (E1 & E2 & E3 & E4).
  rewrite H1' in E1. rewrite H2' in E2. rewrite H3' in E3. rewrite H4' in E4.
  injection E1 as ->. injection E2 as ->. injection E3 as ->. injection E4 as ->.
  cbn [rating]. fold e a.
  replace (1 - a - (1 - e)) with (e - a) by lra. done.
Qed.




(** X4: after a successful match between four distinct players who all
    end above the floor, the four ratings together have moved by
    [(K1 + K2 - K3 - K4) * (actual_t1 - expected_t1)]; so rating points
    are conserved when the two teams' K-factors add up to the same, and
    are created or destroyed when they do not. *)
Theorem process_match_rating_sum
    (p1 p2 p3 p4 s1 s2 : Z) (db db' : database) (msg : message)
    (row1 row2 row3 row4 row1' row2' row3' row4' : player_row) :
  players db !! p1 = Some row1 -> players db !! p2 = Some row2 ->
  players db !! p3 = Some row3 -> players db !! p4 = Some row4 ->
  process_match p1 p2 p3 p4 s1 s2 db = (Value (true, msg), db') ->
  NoDup [p1; p2; p3; p4] ->
  players db' !! p1 = Some row1' -> players db' !! p2 = Some row2' ->
  players db' !! p3 = Some row3' -> players db' !! p4 = Some row4' ->
  100 < rating row1' -> 100 < rating row2' ->
  100 < rating row3' -> 100 < rating row4' ->
  let surprisal :=
    IZR s1 / IZR (s1 + s2)
    - 1 / (1 + Rpower 10 (((rating row3 + rating row4) / 2
                           - (rating row1 + rating row2) / 2) / 400)) in
  let K := fun row : player_row => k_factor (matches_played row) in
  rating row1' + rating row2' + rating row3' + rating row4'
  = rating row1 + rating row2 + rating row3 + rating row4
    + IZR (K row1 + K row2 - K row3 - K row4) * surprisal
  /\ ((K row1 + K row2 = K row3 + K row4)%Z ->
      rating row1' + rating row2' + rating row3' + rating row4'
      = rating row1 + rating row2 + rating row3 + rating row4).
Proof.
  intros H1 H2 H3 H4 Hrun Hnd H1' H2' H3' H4' F1 F2 F3 F4 surprisal K.
  destruct (process_match_distinct_ratings _ _ _ _ _ _ _ _ _ _ _ _ _ _ _ _ _
              H1 H2 H3 H4 Hrun Hnd H1' H2' H3' H4') as (E1 & E2 & E3 & E4).
  unfold logistic in E1, E2, E3, E4.
  set (a := IZR s1 / IZR (s1 + s2)) in *.
  set (e := 1 / (1 + Rpower 10 _)) in *.
  assert (Hfloor : forall x y, 100 < x -> x = Rmax 100 y -> x = y).
  { intros x y Hx ->. unfold Rmax in *. destruct (Rle_dec 100 y); lra. }
  apply Hfloor in E1, E2, E3, E4; try done.
  assert (Hsum : rating row1' + rating row2' + rating row3' + rating row4'
                 = rating row1 + rating row2 + rating row3 + rating row4
                   + IZR (K row1 + K row2 - K row3 - K row4) * surprisal).
  { rewrite E1, E2, E3, E4. subst K surprisal. cbv beta.
    rewrite !minus_IZR, !plus_IZR. lra. }
  split; [exact Hsum |].
  intros HK. rewrite Hsum.
  replace (K row1 + K row2 - K row3 - K row4)%Z with 0%Z by lia. lra.
Qed.

(** Four newcomers at 500, 10-0: 532 + 532 + 468 + 468 = 2000. *)
Lemma process_match_rating_sum_witness :
  exists msg db' row1' row2' row3' row4',
    process_match 1 2 3 4 10 0 league_500 = (Value (true, msg), db')
    /\ players db' !! 1%Z = Some row1' /\ players db' !! 2%Z = Some row2'
    /\ players db' !! 3%Z = Some row3' /\ players db' !! 4%Z = Some row4'
    /\ rating row1' + rating row2' + rating row3' + rating row4' = 2000.
Proof.
  destruct (league_run league_500 10 0 (Player "Ana" 500 0) (Player "Bea" 500 0)
              (Player "Carl" 500 0) (Player "Dan" 500 0))
    as (msg & db' & Hrun);
    [reflexivity | reflexivity | reflexivity | reflexivity | lia | in_range |].
  destruct (process_match_distinct 1 2 3 4 10 0 league_500 db' msg
              (Player "Ana" 500 0) (Player "Bea" 500 0)
              (Player "Carl" 500 0) (Player "Dan" 500 0))
    as (E1 & E2 & E3 & E4); [reflexivity.. | exact Hrun | exact NoDup_1234 |].
  cbn [rating matches_played name] in E1, E2, E3, E4.
  rewrite logistic_same in E1, E2, E3, E4.
  change (k_factor 0) with 64%Z in E1, E2, E3, E4.
  change (10 + 0)%Z with 10%Z in E1, E2, E3, E4.
  replace (500 + 64 * (10 / 10 - 1 / 2)) with 532 in E1, E2 by lra.
  replace (500 + 64 * (1 - 10 / 10 - (1 - 1 / 2))) with 468 in E3, E4 by lra.
  rewrite (Rmax_right 100 532) in E1, E2 by lra.
  rewrite (Rmax_right 100 468) in E3, E4 by lra.
  eexists msg, db', _, _, _, _.
  split; [exact Hrun |]. split; [exact E1 |]. split; [exact E2 |].
  split; [exact E3 |]. split; [exact E4 |].
  edestruct (process_match_rating_sum 1 2 3 4 10 0 league_500 db' msg
               (Player "Ana" 500 0) (Player "Bea" 500 0)
               (Player "Carl" 500 0) (Player "Dan" 500 0))
    as [_ Hcons];
    [reflexivity | reflexivity | reflexivity | reflexivity
     | exact Hrun | exact NoDup_1234
     | exact E1 | exact E2 | exact E3 | exact E4
     | cbn [rating]; lra | cbn [rating]; lra
     | cbn [rating]; lra | cbn [rating]; lra |].
  cbn [rating matches_played] in Hcons |- *.
  rewrite Hcons by reflexivity. lra.
Defined.



(** The 10-0 match between the four newcomers of [league_500]. *)
Lemma league_500_run_10_0 :
  exists msg db',
    process_match 1 2 3 4 10 0 league_500 = (Value (true, msg), db')
    /\ players db' !! 1%Z = Some (Player "Ana" 532 1)
    /\ players db' !! 2%Z = Some (Player "Bea" 532 1)
    /\ players db' !! 3%Z = Some (Player "Carl" 468 1)
    /\ players db' !! 4%Z = Some (Player "Dan" 468 1).
Proof.
  destruct (league_run league_500 10 0 (Player "Ana" 500 0) (Player "Bea" 500 0)
              (Player "Carl" 500 0) (Player "Dan" 500 0))
    as (msg & db' & Hrun);
    [reflexivity | reflexivity | reflexivity | reflexivity | lia | in_range |].
  destruct (process_match_distinct 1 2 3 4 10 0 league_500 db' msg
              (Player "Ana" 500 0) (Player "Bea" 500 0)
              (Player "Carl" 500 0) (Player "Dan" 500 0))
    as (E1 & E2 & E3 & E4); [reflexivity.. | exact Hrun | exact NoDup_1234 |].
  cbn [rating matches_played name] in E1, E2, E3, E4.
  rewrite logistic_same in E1, E2, E3, E4.
  change (k_factor 0) with 64%Z in E1, E2, E3, E4.
  change (10 + 0)%Z with 10%Z in E1, E2, E3, E4.
  replace (500 + 64 * (10 / 10 - 1 / 2)) with 532 in E1, E2 by lra.
  replace (500 + 64 * (1 - 10 / 10 - (1 - 1 / 2))) with 468 in E3, E4 by lra.
  rewrite (Rmax_right 100 532) in E1, E2 by lra.
  rewrite (Rmax_right 100 468) in E3, E4 by lra.
  by exists msg, db'.
Qed.



(** ** Repeated players *)

Lemma process_match_succeeds (p1 p2 p3 p4 s1 s2 : Z) (db : database)
    (row1 row2 row3 row4 : player_row) :
  players db !! p1 = Some row1 -> players db !! p2 = Some row2 ->
  players db !! p3 = Some row3 -> players db !! p4 = Some row4 ->
  (s1 + s2)%Z <> 0%Z ->
  call_in_range s1 s2 (rating row1) (matches_played row1)
                (rating row2) (matches_played row2)
                (rating row3) (matches_played row3)
                (rating row4) (matches_played row4) ->
  exists msg db', process_match p1 p2 p3 p4 s1 s2 db = (Value (true, msg), db').
Proof.
  intros H1 H2 H3 H4 Hnz Hrange.
  rewrite (process_match_found _ _ _ _ _ _ _ _ _ _ _ H1 H2 H3 H4).
  rewrite rate_and_record_nonzero by done. eauto.
Qed.




(** * Registration *)

Lemma foldr_max_ge (l : list Z) (k : Z) :
  k ∈ l -> (k <= foldr Z.max 0 l)%Z.
Proof.
  induction l as [|x l IH]; intros Hin; [by apply elem_of_nil in Hin |].
  cbn [foldr]. apply elem_of_cons in Hin as [-> | Hin]; [lia |].
  specialize (IH Hin). lia.
Qed.

Lemma next_id_fresh (m : gmap Z player_row) : m !! next_id m = None.
Proof.
  destruct (m !! next_id m) as [row|] eqn:Hrow; [| done].
  exfalso. apply elem_of_map_to_list in Hrow.
  assert (Hin : next_id m ∈ (map_to_list m).*1).
  { apply list_elem_of_fmap. by exists (next_id m, row). }
  apply foldr_max_ge in Hin. unfold next_id in Hin. lia.
Qed.

Lemma next_id_positive (m : gmap Z player_row) : (1 <= next_id m)%Z.
Proof.
  unfold next_id.
  assert (0 <= foldr Z.max 0 (map_to_list m).*1)%Z; [| lia].
  induction (map_to_list m).*1 as [|x l IH]; cbn [foldr]; lia.
Qed.

Lemma name_taken_spec (n : string) (m : gmap Z player_row) :
  name_taken n m = true <-> exists id row, m !! id = Some row /\ name row = n.
Proof.
  unfold name_taken. rewrite bool_decide_eq_true, list_elem_of_fmap. split.
  - intros ([id row] & -> & Hin). apply elem_of_map_to_list in Hin. by exists id, row.
  - intros (id & row & Hrow & <-). exists (id, row). split; [done |].
    by apply elem_of_map_to_list.
Qed.

Lemma add_player_run (n : string) (display : R) (db : database) :
  add_player n display db
  = if name_taken n (players db) then (Value false, db)
    else (Value true,
          {| players := <[next_id (players db) := Player n (display * 100) 0]> (players db);
             matches := matches db |}).
Proof.
  unfold add_player, bind, insert_player.
  by destruct (name_taken n (players db)).
Qed.

(** X8: registering a name that some player already carries is refused:
    [add_player] returns [False] and the database is unchanged. *)
Theorem add_player_name_taken (n : string) (display : R) (db : database)
    (id : Z) (row : player_row) :
  players db !! id = Some row -> name row = n ->
  add_player n display db = (Value false, db).
Proof.
  intros Hrow Hname. rewrite add_player_run.
  assert (Htaken : name_taken n (players db) = true)
    by (apply name_taken_spec; eauto).
  by rewrite Htaken.
Qed.

Lemma add_player_name_taken_witness :
  add_player "Bea" 7 league_500 = (Value false, league_500).
Proof.
  apply (add_player_name_taken "Bea" 7 league_500 2 (Player "Bea" 500 0));
    reflexivity.
Defined.

(** X9: registering a name that nobody carries succeeds: the player is
    stored under a key that was not in use, with the display rating
    times 100 (not clamped to the floor) and no match played; every
    other row and the match log are as before.  A display rating
    between 1 and 10 is stored between 100 and 1000. *)
Theorem add_player_new_name (n : string) (display : R) (db : database) :
  (forall id row, players db !! id = Some row -> name row <> n) ->
  exists (id : Z) (db' : database),
    add_player n display db = (Value true, db')
    /\ players db !! id = None
    /\ players db' !! id = Some (Player n (display * 100) 0)
    /\ (forall j, j <> id -> players db' !! j = players db !! j)
    /\ matches db' = matches db
    /\ (1 <= display <= 10 -> 100 <= display * 100 <= 1000).
Proof.
  intros Hfree. rewrite add_player_run.
  destruct (name_taken n (players db)) eqn:Htaken.
  { apply name_taken_spec in Htaken as (id & row & Hrow & Hname).
    by destruct (Hfree id row Hrow). }
  eexists _, _. split; [reflexivity |]. cbn [players matches].
  split; [apply next_id_fresh |].
  split; [apply lookup_insert_eq |].
  split; [intros j Hj; by apply lookup_insert_ne |].
  split; [done | lra].
Qed.

(** The first player of a league gets a row with rating 350 for a
    display rating of 3.5. *)
Lemma add_player_new_name_witness :
  exists id db',
    add_player "Eve" 3.5 (Database ∅ []) = (Value true, db')
    /\ players db' !! id = Some (Player "Eve" (3.5 * 100) 0)
    /\ matches db' = [].
Proof.
  destruct (add_player_new_name "Eve" 3.5 (Database ∅ []))
    as (id & db' & Hrun & _ & Hrow & _ & Hm & _).
  - intros id row Hrow. cbn in Hrow. by rewrite lookup_empty in Hrow.
  - by exists id, db'.
Defined.

(** X10: the register form refuses an empty name without touching the
    database; for any other name it reports the player as added exactly
    when no player carried the name, and as existing otherwise. *)
Theorem register_tab_outcomes (new_name : string) (initial_rating : R)
    (db db' : database) (res : result register_shown) :
  register_tab new_name initial_rating db = (res, db') ->
  (new_name = EmptyString -> res = Value please_enter_a_name /\ db' = db)
  /\ (new_name <> EmptyString ->
      ((exists id row, players db !! id = Some row /\ name row = new_name) ->
       res = Value name_already_exists /\ db' = db)
      /\ ((forall id row, players db !! id = Some row -> name row <> new_name) ->
          res = Value (player_added new_name initial_rating)
          /\ exists id, players db' !! id
                        = Some (Player new_name (initial_rating * 100) 0))).
Proof.
  unfold register_tab. intros Hrun. split.
  - intros ->. rewrite decide_True in Hrun by done. by injection Hrun as <- <-.
  - intros Hne. rewrite decide_False in Hrun by done. unfold bind in Hrun. split.
    + intros (id & row & Hrow & Hname).
      rewrite (add_player_name_taken _ _ _ _ _ Hrow Hname) in Hrun.
      by injection Hrun as <- <-.
    + intros Hfree.
      destruct (add_player_new_name new_name initial_rating db Hfree)
        as (id & db1 & Hadd & _ & Hrow & _).
      rewrite Hadd in Hrun. injection Hrun as <- <-. split; [done |]. by exists id.
Qed.

Lemma register_tab_outcomes_witness :
  register_tab EmptyString 3 league_500 = (Value please_enter_a_name, league_500)
  /\ register_tab "Bea" 3 league_500 = (Value name_already_exists, league_500).
Proof.
  split.
  - destruct (register_tab EmptyString 3 league_500) as [res db'] eqn:Hrun.
    destruct (register_tab_outcomes EmptyString 3 league_500 db' res Hrun) as [Hempty _].
    destruct Hempty as [-> ->]; reflexivity.
  - destruct (register_tab "Bea" 3 league_500) as [res db'] eqn:Hrun.
    destruct (register_tab_outcomes "Bea" 3 league_500 db' res Hrun) as [_ Hname].
    destruct Hname as [Htaken _]; [discriminate |].
    destruct Htaken as [-> ->]; [| reflexivity].
    exists 2%Z, (Player "Bea" 500 0). split; reflexivity.
Defined.

(** * The reachable states *)

Lemma league_invariant_init : league_invariant (Database ∅ []).
Proof.
  split; cbn [players matches].
  - intros i j ri rj Hi. by rewrite lookup_empty in Hi.
  - intros r pid Hr. by apply elem_of_nil in Hr.
  - intros pid row Hrow. by rewrite lookup_empty in Hrow.
  - intros pid row Hrow. by rewrite lookup_empty in Hrow.
Qed.

Lemma league_invariant_add_player (n : string) (display : R) (db db' : database)
    (res : result bool) :
  league_invariant db ->
  add_player n display db = (res, db') ->
  league_invariant db'.
Proof.
  intros [Hnames Hreg Hcounts Hfloor]. rewrite add_player_run.
  destruct (name_taken n (players db)) eqn:Htaken; intros [= <- <-]; [by split |].
  assert (Hfree : forall id row, players db !! id = Some row -> name row <> n).
  { intros id row Hrow Hname.
    assert (name_taken n (players db) = true) by (apply name_taken_spec; eauto).
    congruence. }
  pose proof (next_id_fresh (players db)) as Hfresh.
  set (id := next_id (players db)) in *.
  split; cbn [players matches].
  - intros i j ri rj Hi Hj Heq.
    destruct (decide (i = id)) as [-> | Hi'], (decide (j = id)) as [-> | Hj'];
      [done | | |].
    + rewrite lookup_insert_eq in Hi. rewrite lookup_insert_ne in Hj by done.
      injection Hi as <-. cbn in Heq. by destruct (Hfree j rj Hj).
    + rewrite lookup_insert_eq in Hj. rewrite lookup_insert_ne in Hi by done.
      injection Hj as <-. cbn in Heq. by destruct (Hfree i ri Hi).
    + rewrite lookup_insert_ne in Hi, Hj by done. by eapply Hnames.
  - intros r pid Hr Hplays. rewrite lookup_insert_is_Some'. right. by eapply Hreg.
  - intros pid row Hrow. destruct (decide (pid = id)) as [-> | Hne].
    + rewrite lookup_insert_eq in Hrow. injection Hrow as <-. cbn [matches_played].
      assert (Hnone : filter (plays_in id) (matches db) = []).
      { destruct (filter (plays_in id) (matches db)) as [|r l] eqn:Hf; [done |].
        assert (Hr : r ∈ filter (plays_in id) (matches db))
          by (rewrite Hf; apply list_elem_of_here).
        apply list_elem_of_filter in Hr as [Hplays Hr].
        destruct (Hreg r id Hr Hplays) as [row Hrow]. congruence. }
      by rewrite Hnone.
    + rewrite lookup_insert_ne in Hrow by done. by apply Hcounts.
  - intros pid row Hrow. destruct (decide (pid = id)) as [-> | Hne].
    + rewrite lookup_insert_eq in Hrow. injection Hrow as <-. cbn [matches_played]. lia.
    + rewrite lookup_insert_ne in Hrow by done. by eapply Hfloor.
Qed.

Lemma league_invariant_process_match (p1 p2 p3 p4 s1 s2 : Z) (db db' : database)
    (res : result (bool * message)) :
  league_invariant db ->
  process_match p1 p2 p3 p4 s1 s2 db = (res, db') ->
  league_invariant db'.
Proof.
  intros [Hnames Hreg Hcounts Hfloor] Hrun.
  destruct (process_match_log _ _ _ _ _ _ _ _ _ Hrun)
    as [[-> _] | (msg & change & -> & Hlog)]; [by split |].
  assert (Hsome : forall pid, is_Some (players db' !! pid) <-> is_Some (players db !! pid)).
  { intros pid. rewrite <- !(fmap_is_Some name).
    by rewrite (process_match_names _ _ _ _ _ _ _ _ _ pid Hrun). }
  split.
  - intros i j ri rj Hi Hj Heq.
    pose proof (process_match_names _ _ _ _ _ _ _ _ _ i Hrun) as Ni.
    pose proof (process_match_names _ _ _ _ _ _ _ _ _ j Hrun) as Nj.
    rewrite Hi in Ni. rewrite Hj in Nj.
    destruct (players db !! i) as [ri0|] eqn:Hi0; [| done].
    destruct (players db !! j) as [rj0|] eqn:Hj0; [| done].
    cbn in Ni, Nj. injection Ni as Ni. injection Nj as Nj.
    eapply Hnames; [done.. | congruence].
  - intros r pid Hr Hplays. apply Hsome. rewrite Hlog in Hr.
    apply elem_of_app in Hr as [Hr | Hr]; [by eapply Hreg |].
    apply list_elem_of_singleton in Hr as ->.
    unfold plays_in in Hplays. cbn in Hplays.
    destruct (process_match_written _ _ _ _ _ _ _ _ _ _ Hrun Hplays)
      as (row & _ & Hrow & _). by eexists.
  - intros pid row' Hrow'.
    rewrite Hlog, filter_app, length_app.
    destruct (decide (pid ∈ [p1; p2; p3; p4])) as [Hin | Hout].
    + destruct (process_match_written _ _ _ _ _ _ _ _ _ _ Hrun Hin)
        as (row & row2 & Hrow & Hrow2 & _ & _ & Hm).
      assert (row2 = row') as -> by congruence.
      rewrite Hm, (Hcounts _ _ Hrow).
      rewrite filter_cons_True by done. cbn [filter list_filter length]. lia.
    + rewrite (process_match_others _ _ _ _ _ _ _ _ _ _ Hrun Hout) in Hrow'.
      rewrite (Hcounts _ _ Hrow').
      rewrite filter_cons_False by done. cbn [filter list_filter length]. lia.
  - intros pid row' Hrow' Hplayed.
    destruct (decide (pid ∈ [p1; p2; p3; p4])) as [Hin | Hout].
    + destruct (process_match_written _ _ _ _ _ _ _ _ _ _ Hrun Hin)
        as (row & row2 & _ & Hrow2 & _ & Hfl & _).
      assert (row2 = row') as -> by congruence. exact Hfl.
    + rewrite (process_match_others _ _ _ _ _ _ _ _ _ _ Hrun Hout) in Hrow'.
      by eapply Hfloor.
Qed.

Lemma reachable_invariant (db : database) : reachable db -> league_invariant db.
Proof.
  induction 1 as [| db n display res db' _ IH Hadd
                  | db p1 p2 p3 p4 s1 s2 res db' _ IH Hrun].
  - apply league_invariant_init.
  - by eapply league_invariant_add_player.
  - by eapply league_invariant_process_match.
Qed.

Lemma add_player_step (n : string) (display r : R) (m : gmap Z player_row)
    (log : list match_row) (id : Z) :
  name_taken n m = false -> next_id m = id -> display * 100 = r ->
  add_player n display (Database m log)
  = (Value true, Database (<[id := Player n r 0]> m) log).
Proof.
  intros Hfree <- <-. rewrite add_player_run. cbn [players matches].
  by rewrite Hfree.
Qed.

(** [league_500] is what registering Ana, Bea, Carl and Dan at display
    rating 5 gives. *)
Lemma reachable_league_500 : reachable league_500.
Proof.
  change league_500
    with (Database (<[4%Z := Player "Dan" 500 0]>
                     (<[3%Z := Player "Carl" 500 0]>
                       (<[2%Z := Player "Bea" 500 0]>
                         (<[1%Z := Player "Ana" 500 0]> ∅)))) []).
  eapply reachable_add_player;
    [| apply (add_player_step "Dan" 5); [reflexivity | reflexivity | lra]].
  eapply reachable_add_player;
    [| apply (add_player_step "Carl" 5); [reflexivity | reflexivity | lra]].
  eapply reachable_add_player;
    [| apply (add_player_step "Bea" 5); [reflexivity | reflexivity | lra]].
  eapply reachable_add_player;
    [| apply (add_player_step "Ana" 5); [reflexivity | reflexivity | lra]].
  constructor.
Qed.

(** The league after Ana and Bea beat Carl and Dan 10-0. *)
Lemma reachable_league_played :
  exists db',
    reachable db'
    /\ players db' !! 1%Z = Some (Player "Ana" 532 1)
    /\ players db' !! 3%Z = Some (Player "Carl" 468 1)
    /\ length (matches db') = 1%nat.
Proof.
  destruct league_500_run_10_0 as (msg & db' & Hrun & E1 & _ & E3 & _).
  exists db'. split; [| split; [done | split; [done |]]].
  - eapply reachable_process_match; [exact reachable_league_500 | exact Hrun].
  - destruct (process_match_log _ _ _ _ _ _ _ _ _ Hrun)
      as [[_ Hno] | (_ & change & _ & ->)]; [by destruct (Hno msg) | done].
Qed.

(** ** The queries *)

Lemma get_players_Permutation (db : database) :
  exists rows, get_players db = (Value rows, db) /\ rows ≡ₚ map_to_list (players db).
Proof.
  eexists. split; [reflexivity |]. apply merge_sort_Permutation.
Qed.

Lemma dict_zip_fold_lookup (rows : list (Z * player_row)) (id : Z) (row : player_row) :
  forall acc : gmap string Z,
    (id, row) ∈ rows \/ acc !! name row = Some id ->
    (forall kv, kv ∈ rows -> name kv.2 = name row -> kv.1 = id) ->
    fold_left (fun d kv => <[name kv.2 := kv.1]> d) rows acc !! name row = Some id.
Proof.
  induction rows as [|kv rest IH]; intros acc Hin Huniq; cbn [fold_left].
  - destruct Hin as [Hin | Hacc]; [by apply elem_of_nil in Hin | done].
  - apply IH.
    + destruct (decide (name kv.2 = name row)) as [Heq | Hne].
      * right. rewrite Heq, (Huniq kv); [apply lookup_insert_eq | apply list_elem_of_here | done].
      * destruct Hin as [Hin | Hacc].
        -- apply elem_of_cons in Hin as [<- | Hin]; [done | by left].
        -- right. by rewrite lookup_insert_ne.
    + intros kv' Hkv'. apply Huniq. by apply list_elem_of_further.
Qed.

Lemma dict_zip_fold_sound (rows : list (Z * player_row)) (n : string) (id : Z) :
  forall acc : gmap string Z,
    fold_left (fun d kv => <[name kv.2 := kv.1]> d) rows acc !! n = Some id ->
    acc !! n = Some id \/ exists row, (id, row) ∈ rows /\ name row = n.
Proof.
  induction rows as [|[k row] rest IH]; intros acc Hl; cbn [fold_left] in Hl; [by left |].
  apply IH in Hl as [Hl | (row' & Hin & Hname)].
  - cbn in Hl. destruct (decide (name row = n)) as [Heq | Hne].
    + rewrite Heq, lookup_insert_eq in Hl. injection Hl as ->.
      right. exists row. split; [apply list_elem_of_here | done].
    + rewrite lookup_insert_ne in Hl by done. by left.
  - right. exists row'. split; [by apply list_elem_of_further | done].
Qed.

(** X11: in a reachable league names are unique, so the dictionary
    [{name: id}] that the "Record Match" tab builds from [get_players]
    sends every registered player's name to that player's id. *)
Theorem reachable_player_dict (db : database) (id : Z) (row : player_row) :
  reachable db ->
  players db !! id = Some row ->
  (forall j rj, players db !! j = Some rj -> name rj = name row -> j = id)
  /\ exists player_df,
       get_players db = (Value player_df, db)
       /\ dict_zip player_df !! name row = Some id.
Proof.
  intros Hreach Hrow.
  pose proof (inv_names db (reachable_invariant db Hreach)) as Hnames.
  split; [intros j rj Hj Heq; by eapply Hnames |].
  destruct (get_players_Permutation db) as (rows & Hget & Hperm).
  exists rows. split; [done |].
  apply dict_zip_fold_lookup.
  - left. rewrite Hperm. by apply elem_of_map_to_list.
  - intros [j rj] Hin Heq. rewrite Hperm in Hin.
    apply elem_of_map_to_list in Hin. by eapply Hnames.
Qed.

Lemma reachable_player_dict_witness :
  exists player_df,
    get_players league_500 = (Value player_df, league_500)
    /\ dict_zip player_df !! "Bea" = Some 2%Z.
Proof.
  destruct (reachable_player_dict league_500 2 (Player "Bea" 500 0)
              reachable_league_500) as [_ Hdict]; [reflexivity |].
  exact Hdict.
Defined.

Lemma length_omap_total {A B} (f : A -> option B) (l : list A) :
  (forall x, x ∈ l -> is_Some (f x)) -> length (omap f l) = length l.
Proof.
  induction l as [|x l IH]; intros Htotal; [done |].
  cbn [omap list_omap]. destruct (Htotal x) as [y Hy]; [apply list_elem_of_here |].
  rewrite Hy. cbn [length]. f_equal. apply IH.
  intros z Hz. apply Htotal. by apply list_elem_of_further.
Qed.

Lemma join_names_is_Some (m : gmap Z player_row) (r : match_row) :
  (forall pid, plays_in pid r -> is_Some (m !! pid)) -> is_Some (join_names m r).
Proof.
  intros Hreg. unfold join_names.
  destruct (Hreg (p1_id r)) as [r1 ->]; [unfold plays_in; set_solver |].
  destruct (Hreg (p2_id r)) as [r2 ->]; [unfold plays_in; set_solver |].
  destruct (Hreg (p3_id r)) as [r3 ->]; [unfold plays_in; set_solver |].
  destruct (Hreg (p4_id r)) as [r4 ->]; [unfold plays_in; set_solver |].
  by eexists.
Qed.

(** X12: in a reachable league every row of the match log names four
    registered players, so the joins of the history query drop nothing:
    the history has one entry per logged match. *)
Theorem reachable_history_complete (db : database) :
  reachable db ->
  (forall r pid, r ∈ matches db -> plays_in pid r -> is_Some (players db !! pid))
  /\ exists history,
       get_match_history db = (Value history, db)
       /\ length history = length (matches db).
Proof.
  intros Hreach.
  pose proof (inv_registered db (reachable_invariant db Hreach)) as Hreg.
  split; [exact Hreg |].
  eexists. split; [reflexivity |].
  rewrite length_omap_total, length_reverse; [done |].
  intros r Hr. rewrite elem_of_reverse in Hr.
  apply join_names_is_Some. intros pid Hplays. exact (Hreg r pid Hr Hplays).
Qed.

Lemma reachable_history_complete_witness :
  exists db' history,
    reachable db'
    /\ get_match_history db' = (Value history, db')
    /\ length history = 1%nat.
Proof.
  destruct reachable_league_played as (db' & Hreach & _ & _ & Hlen).
  destruct (reachable_history_complete db' Hreach) as [_ (history & Hget & Hh)].
  exists db', history. split; [exact Hreach |]. split; [exact Hget |].
  rewrite Hh. exact Hlen.
Defined.

(** X13: in a reachable league the counter [matches_played] of a player
    is the number of rows of the match log that name the player. *)
Theorem reachable_matches_played_counts (db : database) (pid : Z) (row : player_row) :
  reachable db ->
  players db !! pid = Some row ->
  matches_played row = Z.of_nat (length (filter (plays_in pid) (matches db))).
Proof.
  intros Hreach. apply (inv_counts db (reachable_invariant db Hreach)).
Qed.

Lemma reachable_matches_played_counts_witness :
  exists db',
    reachable db'
    /\ players db' !! 1%Z = Some (Player "Ana" 532 1)
    /\ length (filter (plays_in 1) (matches db')) = 1%nat.
Proof.
  destruct reachable_league_played as (db' & Hreach & E1 & _ & _).
  exists db'. split; [exact Hreach |]. split; [exact E1 |].
  pose proof (reachable_matches_played_counts db' 1 _ Hreach E1) as Hcount.
  cbn [matches_played] in Hcount. lia.
Defined.

(** X14: in a reachable league a player who has played at least one
    match stands at or above the floor of 100, whatever rating the
    player was registered with; and no counter is negative. *)
Theorem reachable_played_above_floor (db : database) (pid : Z) (row : player_row) :
  reachable db ->
  players db !! pid = Some row ->
  (0 <= matches_played row)%Z
  /\ ((0 < matches_played row)%Z -> 100 <= rating row).
Proof.
  intros Hreach Hrow.
  pose proof (reachable_invariant db Hreach) as Hinv. split.
  - rewrite (inv_counts db Hinv pid row Hrow). lia.
  - by apply (inv_floor db Hinv pid row).
Qed.

Lemma reachable_played_above_floor_witness :
  exists db' row,
    reachable db'
    /\ players db' !! 3%Z = Some row
    /\ 100 <= rating row.
Proof.
  destruct reachable_league_played as (db' & Hreach & _ & E3 & _).
  exists db', (Player "Carl" 468 1). split; [exact Hreach |]. split; [exact E3 |].
  apply (reachable_played_above_floor db' 3 _ Hreach E3). cbn [matches_played]. lia.
Defined.

Lemma omap_join_names_ext (m m' : gmap Z player_row) (l : list match_row) :
  (forall pid, name <$> m' !! pid = name <$> m !! pid) ->
  omap (join_names m') l = omap (join_names m) l.
Proof.
  intros Hnames. induction l as [|r l IH]; [done |].
  cbn [omap list_omap]. rewrite IH. unfold join_names. by rewrite !Hnames.
Qed.

(** X15: after a successful call the match history holds the entries
    of before and one more, with the names of the four players given and
    the two scores. *)
Theorem process_match_history
    (p1 p2 p3 p4 s1 s2 : Z) (db db' : database) (msg : message)
    (row1 row2 row3 row4 : player_row) (history : list history_row) :
  players db !! p1 = Some row1 -> players db !! p2 = Some row2 ->
  players db !! p3 = Some row3 -> players db !! p4 = Some row4 ->
  process_match p1 p2 p3 p4 s1 s2 db = (Value (true, msg), db') ->
  get_match_history db = (Value history, db) ->
  exists history',
    get_match_history db' = (Value history', db')
    /\ history'
       ≡ₚ History_row (name row1) (name row2) (name row3) (name row4) s1 s2
          :: history.
Proof.
  intros H1 H2 H3 H4 Hrun [= <-]. unfold get_match_history.
  eexists. split; [reflexivity |].
  destruct (process_match_log _ _ _ _ _ _ _ _ _ Hrun)
    as [[_ Hno] | (_ & change & _ & ->)]; [by destruct (Hno msg) |].
  rewrite reverse_app. cbn [reverse rev_append app omap list_omap].
  pose proof (fun pid => process_match_names _ _ _ _ _ _ _ _ _ pid Hrun) as Hnames.
  rewrite (omap_join_names_ext (players db) (players db')) by done.
  unfold join_names at 1. cbn [p1_id p2_id p3_id p4_id score_team1 score_team2].
  by rewrite !Hnames, H1, H2, H3, H4.
Qed.

Lemma process_match_history_witness :
  exists msg db' history',
    process_match 1 2 3 4 10 0 league_500 = (Value (true, msg), db')
    /\ get_match_history db' = (Value history', db')
    /\ history' ≡ₚ [History_row "Ana" "Bea" "Carl" "Dan" 10 0].
Proof.
  destruct league_500_run_10_0 as (msg & db' & Hrun & _).
  destruct (process_match_history 1 2 3 4 10 0 league_500 db' msg
              (Player "Ana" 500 0) (Player "Bea" 500 0)
              (Player "Carl" 500 0) (Player "Dan" 500 0) [])
    as (history' & Hget & Hperm); [reflexivity.. | exact Hrun | reflexivity |].
  exists msg, db', history'.
  split; [exact Hrun |]. split; [exact Hget | exact Hperm].
Defined.

(** * The leaderboard *)

#[local] Instance rating_ge_trans : Transitive rating_ge.
Proof. intros x y z. unfold rating_ge. lra. Qed.

#[local] Instance rating_ge_total : Total rating_ge.
Proof. intros x y. unfold rating_ge. lra. Qed.

Lemma StronglySorted_lookup {A} (R : relation A) (l : list A) :
  StronglySorted R l ->
  forall (i j : nat) (x y : A),
    l !! i = Some x -> l !! j = Some y -> (i < j)%nat -> R x y.
Proof.
  induction 1 as [|z l Hsorted IH Hall]; intros i j x y Hi Hj Hlt.
  - by rewrite lookup_nil in Hi.
  - destruct j as [|j]; [lia |]. cbn in Hj. destruct i as [|i].
    + cbn in Hi. injection Hi as <-.
      rewrite Forall_forall in Hall. apply Hall.
      by apply list_elem_of_lookup_2 in Hj.
    + cbn in Hi. apply (IH i j); [done.. | lia].
Qed.

Lemma get_leaderboard_run (db : database) :
  get_leaderboard db
  = (Value (with_display_rating
              <$> merge_sort rating_ge (map_to_list (players db)).*2), db).
Proof. reflexivity. Qed.

(** X16: the leaderboard lists every registered player once and nobody
    else, with the display rating equal to the stored rating divided by
    100, in order of rating: no row has a higher rating than a row
    before it.  The query changes nothing. *)
Theorem get_leaderboard_sorted (db : database) :
  exists df,
    get_leaderboard db = (Value df, db)
    /\ df ≡ₚ with_display_rating <$> (map_to_list (players db)).*2
    /\ length df = size (players db)
    /\ (forall row, row ∈ df -> Display_Rating row = lb_rating row / 100)
    /\ (forall (i j : nat) (x y : leaderboard_row),
          df !! i = Some x -> df !! j = Some y -> (i < j)%nat ->
          lb_rating y <= lb_rating x).
Proof.
  eexists. split; [apply get_leaderboard_run |].
  split; [by rewrite merge_sort_Permutation |].
  split; [| split].
  - by rewrite length_fmap, merge_sort_Permutation, length_fmap, length_map_to_list.
  - intros row Hrow. apply list_elem_of_fmap in Hrow as (r & -> & _). done.
  - intros i j x y Hi Hj Hlt.
    rewrite list_lookup_fmap in Hi, Hj.
    destruct (merge_sort rating_ge (map_to_list (players db)).*2 !! i) as [ri|] eqn:Ei;
      [| done].
    destruct (merge_sort rating_ge (map_to_list (players db)).*2 !! j) as [rj|] eqn:Ej;
      [| done].
    cbn in Hi, Hj. injection Hi as <-. injection Hj as <-. cbn [lb_rating with_display_rating].
    apply (StronglySorted_lookup rating_ge _
             (StronglySorted_merge_sort rating_ge _) i j ri rj Ei Ej Hlt).
Qed.




(** X18: the table of the "Leaderboard" tab is replaced by a notice
    exactly when nobody is registered; otherwise it has one row per
    player, its ranks count 1, 2, 3, ... from the top, and a better rank
    never goes with a lower display rating. *)
Theorem leaderboard_tab_ranks (db : database) :
  exists shown,
    leaderboard_tab db = (Value shown, db)
    /\ (shown = None <-> players db = ∅)
    /\ forall table, shown = Some table ->
         length table = size (players db)
         /\ (forall (i : nat) (rank : Z) (n : string) (display : R) (played : Z),
               table !! i = Some (rank, n, display, played) ->
               rank = Z.of_nat (i + 1))
         /\ (forall (i j : nat) (rank_i rank_j : Z) (n_i n_j : string)
                    (display_i display_j : R) (played_i played_j : Z),
               table !! i = Some (rank_i, n_i, display_i, played_i) ->
               table !! j = Some (rank_j, n_j, display_j, played_j) ->
               (rank_i < rank_j)%Z -> display_j <= display_i).
Proof.
  destruct (get_leaderboard_sorted db) as (df & Hget & _ & Hlen & Hdisplay & Hsorted).
  unfold leaderboard_tab, bind. rewrite Hget.
  set (table0 := zip_with _ (Z.of_nat <$> seq 1 (length df)) df).
  assert (Hranks : forall (i : nat) (rank : Z) (n : string) (display : R) (played : Z),
             table0 !! i = Some (rank, n, display, played) ->
             rank = Z.of_nat (i + 1)
             /\ exists row, df !! i = Some row /\ display = lb_rating row / 100).
  { intros i rank n display played Hi. subst table0.
    apply lookup_zip_with_Some in Hi as (r & row & [= -> -> -> ->] & Hr & Hrow).
    split.
    - rewrite list_lookup_fmap in Hr.
      destruct (seq 1 (length df) !! i) as [k|] eqn:Hk; [| done].
      apply lookup_seq in Hk as [-> _]. cbn in Hr. injection Hr as <-. f_equal. lia.
    - exists row. split; [done |]. apply Hdisplay.
      by apply list_elem_of_lookup_2 in Hrow. }
  exists (match df with [] => None | _ => Some table0 end).
  split; [by destruct df |]. split.
  - rewrite <- map_size_empty_iff, <- Hlen. by destruct df.
  - intros table Htable.
    assert (table = table0) as -> by (destruct df; congruence).
    split; [| split].
    + subst table0. rewrite length_zip_with_r_eq; [done |].
      by rewrite length_fmap, length_seq.
    + intros i rank n display played Hi. by apply Hranks in Hi as [-> _].
    + intros i j rank_i rank_j n_i n_j display_i display_j played_i played_j Hi Hj Hlt.
      apply Hranks in Hi as [-> (x & Hx & ->)].
      apply Hranks in Hj as [-> (y & Hy & ->)].
      assert (lb_rating y <= lb_rating x) by (apply (Hsorted i j x y Hx Hy); lia).
      lra.
Qed.

Lemma get_leaderboard_sorted_witness :
  exists df,
    get_leaderboard league_mixed = (Value df, league_mixed)
    /\ length df = 4%nat.
Proof.
  destruct (get_leaderboard_sorted league_mixed) as (df & Hget & _ & Hlen & _).
  exists df. split; [exact Hget |]. rewrite Hlen. reflexivity.
Defined.

Lemma leaderboard_tab_ranks_witness :
  leaderboard_tab (Database ∅ []) = (Value None, Database ∅ []).
Proof.
  destruct (leaderboard_tab_ranks (Database ∅ [])) as (shown & Hrun & Hnone & _).
  rewrite Hrun. f_equal. f_equal. apply Hnone. reflexivity.
Defined.

(** * The "Record Match" tab *)

Lemma dict_zip_complete (rows : list (Z * player_row)) (id : Z) (row : player_row) :
  (id, row) ∈ rows -> is_Some (dict_zip rows !! name row).
Proof.
  unfold dict_zip. intros Hin.
  assert (Hgen : forall acc : gmap string Z,
             (id, row) ∈ rows \/ is_Some (acc !! name row) ->
             is_Some (fold_left (fun d kv => <[name kv.2 := kv.1]> d) rows acc !! name row)).
  { clear Hin. induction rows as [|kv rest IH]; intros acc Hin; cbn [fold_left].
    - destruct Hin as [Hin | Hacc]; [by apply elem_of_nil in Hin | done].
    - apply IH. destruct Hin as [Hin | Hacc].
      + apply elem_of_cons in Hin as [<- | Hin]; [| by left].
        right. cbn. rewrite lookup_insert_eq. by eexists.
      + right. rewrite lookup_insert_is_Some'. by right. }
  apply Hgen. by left.
Qed.

Lemma dict_zip_sound (rows : list (Z * player_row)) (n : string) (id : Z) :
  dict_zip rows !! n = Some id -> exists row, (id, row) ∈ rows /\ name row = n.
Proof.
  intros Hl. apply dict_zip_fold_sound in Hl as [Hl | Hl]; [| done].
  by rewrite lookup_empty in Hl.
Qed.

(** The player dictionary of a database: every registered name is a key,
    and every key leads to a registered player of that name. *)
Lemma player_dict_registered (db : database) (rows : list (Z * player_row)) (t : string) :
  rows ≡ₚ map_to_list (players db) ->
  (exists id row, players db !! id = Some row /\ name row = t) ->
  exists p row, dict_zip rows !! t = Some p
                /\ players db !! p = Some row /\ name row = t.
Proof.
  intros Hperm (id & row & Hrow & <-).
  destruct (dict_zip_complete rows id row) as [p Hp].
  { rewrite Hperm. by apply elem_of_map_to_list. }
  destruct (dict_zip_sound _ _ _ Hp) as (row' & Hin & Hname).
  rewrite Hperm in Hin. apply elem_of_map_to_list in Hin.
  by exists p, row'.
Qed.

Lemma submit_result_run (player_dict : gmap string Z) (t1 t2 t3 t4 : string)
    (s1 s2 p1 p2 p3 p4 : Z) (db : database) :
  NoDup [t1; t2; t3; t4] ->
  (0 <= s1)%Z -> (0 <= s2)%Z -> (s1 + s2)%Z <> 0%Z ->
  player_dict !! t1 = Some p1 -> player_dict !! t2 = Some p2 ->
  player_dict !! t3 = Some p3 -> player_dict !! t4 = Some p4 ->
  submit_result player_dict t1 t2 t3 t4 s1 s2 db
  = bind (process_match p1 p2 p3 p4 s1 s2)
         (fun x => let '(success, msg) := x in
                   if success : bool then ret (st_success msg)
                   else ret (st_error_msg msg)) db.
Proof.
  intros Hnd Hs1 Hs2 Hnz D1 D2 D3 D4. unfold submit_result.
  rewrite decide_False by (intros Hne; apply Hne; by apply size_list_to_set).
  assert (Hzero : (s1 =? 0)%Z && (s2 =? 0)%Z = false).
  { apply andb_false_iff. destruct (Z.eqb_spec s1 0); [| by left].
    right. apply Z.eqb_neq. lia. }
  rewrite Hzero. unfold bind at 1 2 3 4, getitem.
  by rewrite D1, D2, D3, D4.
Qed.


Lemma league_in_range_call (db : database) (p1 p2 p3 p4 s1 s2 : Z)
    (row1 row2 row3 row4 : player_row) :
  league_in_range db ->
  players db !! p1 = Some row1 -> players db !! p2 = Some row2 ->
  players db !! p3 = Some row3 -> players db !! p4 = Some row4 ->
  in_int64 s1 = true -> in_int64 s2 = true ->
  call_in_range s1 s2 (rating row1) (matches_played row1)
                (rating row2) (matches_played row2)
                (rating row3) (matches_played row3)
                (rating row4) (matches_played row4).
Proof.
  intros Hleague H1 H2 H3 H4 Hs1 Hs2.
  destruct (Hleague _ _ H1) as [R1 M1]. destruct (Hleague _ _ H2) as [R2 M2].
  destruct (Hleague _ _ H3) as [R3 M3]. destruct (Hleague _ _ H4) as [R4 M4].
  unfold call_in_range. split; [lra | done].
Qed.

(** X19: whatever the database, when the four names chosen in the form
    are names of registered players and the two scores are not negative
    (what the dropdowns and the number inputs allow), submitting the
    form never shows the engine's own refusal and raises nothing but
    [OverflowError]: it shows the warning for fewer than four players or
    one of the form's own errors, with nothing written; or it reports a
    success of [process_match], which was then called with four distinct
    registered players; or [process_match] raises [OverflowError], with
    nothing written, which does not happen when the scores are of 64
    bits and the league is in range. *)
Theorem record_match_tab_safe
    (t1_p1 t1_p2 t2_p1 t2_p2 : string) (score_t1 score_t2 : Z)
    (db db' : database) (res : result record_match_shown) :
  (forall t, t ∈ [t1_p1; t1_p2; t2_p1; t2_p2] ->
             exists id row, players db !! id = Some row /\ name row = t) ->
  (0 <= score_t1)%Z -> (0 <= score_t2)%Z ->
  record_match_tab t1_p1 t1_p2 t2_p1 t2_p2 score_t1 score_t2 db = (res, db') ->
  (res = Value st_warning_4_players /\ db' = db /\ (size (players db) < 4)%nat)
  \/ (exists text, res = Value (submitted (st_error text)) /\ db' = db)
  \/ (exists msg p1 p2 p3 p4,
        res = Value (submitted (st_success msg))
        /\ NoDup [p1; p2; p3; p4]
        /\ name <$> players db !! p1 = Some t1_p1
        /\ name <$> players db !! p2 = Some t1_p2
        /\ name <$> players db !! p3 = Some t2_p1
        /\ name <$> players db !! p4 = Some t2_p2
        /\ process_match p1 p2 p3 p4 score_t1 score_t2 db = (Value (true, msg), db'))
  \/ (res = Raise OverflowError /\ db' = db
      /\ ~ (in_int64 score_t1 = true /\ in_int64 score_t2 = true
            /\ league_in_range db)).
Proof.
  intros Hreg Hs1 Hs2. unfold record_match_tab.
  destruct (get_players_Permutation db) as (rows & Hget & Hperm).
  unfold bind at 1. rewrite Hget.
  assert (Hlen : length rows = size (players db))
    by (by rewrite Hperm, length_map_to_list).
  destruct (Nat.ltb_spec (length rows) 4) as [Hfew | Hmany].
  { intros [= <- <-]. left. repeat split. lia. }
  unfold bind at 1.
  destruct (decide (NoDup [t1_p1; t1_p2; t2_p1; t2_p2])) as [Hnd | Hdup].
  2: { unfold submit_result. rewrite decide_True.
       - intros [= <- <-]. right. left. eauto.
       - intros Hsize. apply Hdup. by apply size_list_to_set_NoDup. }
  destruct (decide (score_t1 + score_t2 = 0)%Z) as [Hz | Hnz].
  { unfold submit_result.
    rewrite decide_False by (intros Hne; apply Hne; by apply size_list_to_set).
    assert (score_t1 = 0%Z /\ score_t2 = 0%Z) as [-> ->] by lia. cbn [Z.eqb andb].
    intros [= <- <-]. right. left. eauto. }
  destruct (player_dict_registered db rows t1_p1 Hperm) as (p1 & row1 & D1 & H1 & N1);
    [apply Hreg; set_solver |].
  destruct (player_dict_registered db rows t1_p2 Hperm) as (p2 & row2 & D2 & H2 & N2);
    [apply Hreg; set_solver |].
  destruct (player_dict_registered db rows t2_p1 Hperm) as (p3 & row3 & D3 & H3 & N3);
    [apply Hreg; set_solver |].
  destruct (player_dict_registered db rows t2_p2 Hperm) as (p4 & row4 & D4 & H4 & N4);
    [apply Hreg; set_solver |].
  rewrite (submit_result_run _ _ _ _ _ _ _ p1 p2 p3 p4 db Hnd Hs1 Hs2 Hnz D1 D2 D3 D4).
  pose proof (process_match_found p1 p2 p3 p4 score_t1 score_t2 db _ _ _ _
                H1 H2 H3 H4) as Hfound.
  destruct (rate_and_record_outcomes p1 p2 p3 p4 score_t1 score_t2
              (rating row1) (matches_played row1) (rating row2) (matches_played row2)
              (rating row3) (matches_played row3) (rating row4) (matches_played row4) db)
    as [(msg & db1 & Hrec) | [[Hz _] | Hrec]]; [| done |].
  - rewrite <- Hfound in Hrec. unfold bind. rewrite Hrec. cbn [ret].
    intros [= <- <-].
    right. right. left. exists msg, p1, p2, p3, p4.
    rewrite H1, H2, H3, H4. cbn. rewrite N1, N2, N3, N4.
    repeat split; [| done].
    apply (NoDup_fmap_1 (fun p => name <$> players db !! p)).
    cbn. rewrite H1, H2, H3, H4. cbn. rewrite N1, N2, N3, N4.
    by apply (NoDup_fmap_2 Some) in Hnd.
  - rewrite <- Hfound in Hrec. unfold bind. rewrite Hrec.
    intros [= <- <-].
    right. right. right. split; [done |]. split; [done |].
    intros (Hi1 & Hi2 & Hleague).
    destruct (process_match_succeeds p1 p2 p3 p4 score_t1 score_t2 db _ _ _ _
                H1 H2 H3 H4 Hnz
                (league_in_range_call db _ _ _ _ _ _ _ _ _ _
                   Hleague H1 H2 H3 H4 Hi1 Hi2))
      as (msg & db1 & Hrun).
    rewrite Hrun in Hrec. discriminate Hrec.
Qed.

Lemma league_500_in_range : league_in_range league_500.
Proof.
  intros pid row Hrow.
  assert (Hcases : row = Player "Ana" 500 0 \/ row = Player "Bea" 500 0
                   \/ row = Player "Carl" 500 0 \/ row = Player "Dan" 500 0).
  { unfold league_500 in Hrow. cbn [players] in Hrow.
    destruct (decide (pid = 1%Z)) as [-> | N1];
      [rewrite lookup_insert_eq in Hrow; injection Hrow as <-; auto |].
    rewrite lookup_insert_ne in Hrow by done.
    destruct (decide (pid = 2%Z)) as [-> | N2];
      [rewrite lookup_insert_eq in Hrow; injection Hrow as <-; auto |].
    rewrite lookup_insert_ne in Hrow by done.
    destruct (decide (pid = 3%Z)) as [-> | N3];
      [rewrite lookup_insert_eq in Hrow; injection Hrow as <-; auto |].
    rewrite lookup_insert_ne in Hrow by done.
    destruct (decide (pid = 4%Z)) as [-> | N4];
      [rewrite lookup_singleton_eq in Hrow; injection Hrow as <-; auto |].
    by rewrite lookup_singleton_ne in Hrow. }
  destruct Hcases as [-> | [-> | [-> | ->]]]; cbn [rating matches_played];
    (split; [lra | reflexivity]).
Qed.

(** Ana, Bea, Carl and Dan of [league_500], 10-0: the league is in
    range, so the form shows a warning, an error of its own or the
    success of [process_match]. *)
Lemma record_match_tab_safe_witness :
  exists res db',
    record_match_tab "Ana" "Bea" "Carl" "Dan" 10 0 league_500 = (res, db')
    /\ ((res = Value st_warning_4_players /\ db' = league_500
         /\ (size (players league_500) < 4)%nat)
        \/ (exists text, res = Value (submitted (st_error text)) /\ db' = league_500)
        \/ (exists msg p1 p2 p3 p4,
              res = Value (submitted (st_success msg))
              /\ NoDup [p1; p2; p3; p4]
              /\ name <$> players league_500 !! p1 = Some "Ana"
              /\ name <$> players league_500 !! p2 = Some "Bea"
              /\ name <$> players league_500 !! p3 = Some "Carl"
              /\ name <$> players league_500 !! p4 = Some "Dan"
              /\ process_match p1 p2 p3 p4 10 0 league_500 = (Value (true, msg), db'))).
Proof.
  exists (record_match_tab "Ana" "Bea" "Carl" "Dan" 10 0 league_500).1,
         (record_match_tab "Ana" "Bea" "Carl" "Dan" 10 0 league_500).2.
  split; [apply surjective_pairing |].
  destruct (record_match_tab_safe "Ana" "Bea" "Carl" "Dan" 10 0 league_500
              (record_match_tab "Ana" "Bea" "Carl" "Dan" 10 0 league_500).2
              (record_match_tab "Ana" "Bea" "Carl" "Dan" 10 0 league_500).1)
    as [Hw | [He | [Hok | (_ & _ & Hout)]]];
    [| lia | lia | apply surjective_pairing
     | left; exact Hw | right; left; exact He | right; right; exact Hok |].
  - intros t Ht.
    apply elem_of_cons in Ht as [-> | Ht];
      [exists 1%Z, (Player "Ana" 500 0); split; reflexivity |].
    apply elem_of_cons in Ht as [-> | Ht];
      [exists 2%Z, (Player "Bea" 500 0); split; reflexivity |].
    apply elem_of_cons in Ht as [-> | Ht];
      [exists 3%Z, (Player "Carl" 500 0); split; reflexivity |].
    apply elem_of_cons in Ht as [-> | Ht];
      [exists 4%Z, (Player "Dan" 500 0); split; reflexivity |].
    apply elem_of_nil in Ht. destruct Ht.
  - exfalso. apply Hout.
    split; [reflexivity |]. split; [reflexivity |]. apply league_500_in_range.
Defined.



(** * The provisional period and the success message *)

(** X21: in a reachable league the K-factor that a player's next match
    will use is 64 exactly while fewer than five rows of the match log
    name the player, and 32 from the fifth logged match on. *)
Theorem reachable_provisional_period (db : database) (pid : Z) (row : player_row) :
  reachable db ->
  players db !! pid = Some row ->
  (k_factor (matches_played row) = 64%Z
   <-> (length (filter (plays_in pid) (matches db)) < 5)%nat)
  /\ (k_factor (matches_played row) = 32%Z
      <-> (5 <= length (filter (plays_in pid) (matches db)))%nat).
Proof.
  intros Hreach Hrow.
  rewrite (inv_counts db (reachable_invariant db Hreach) pid row Hrow).
  rewrite k_factor_cases. case_decide; split; split; intros; lia.
Qed.

Lemma reachable_provisional_period_witness :
  exists db',
    reachable db'
    /\ players db' !! 1%Z = Some (Player "Ana" 532 1)
    /\ k_factor 1 = 64%Z
    /\ (length (filter (plays_in 1) (matches db')) < 5)%nat.
Proof.
  destruct reachable_league_played as (db' & Hreach & E1 & _ & _).
  exists db'. split; [exact Hreach |]. split; [exact E1 |].
  split; [reflexivity |].
  apply (reachable_provisional_period db' 1 (Player "Ana" 532 1) Hreach E1).
  reflexivity.
Defined.




